(** * x68k-hid: the USB-HID to X68000 protocol engine of [src/main.c]

    A shallow embedding of the firmware's protocol core: the module-level
    variables become one record [State], every C procedure becomes a state
    transformer that also returns the list of observable effects it performed
    (bytes pushed into the two UARTs, calls of the activity-LED routine), and
    the fixed-width C integers are integers of [Z] with their conversions
    written out.  A handler, whether the main loop or an interrupt calls it,
    runs to completion before the next one starts. *)

From Stdlib Require Import ZArith List Bool Lia Permutation.
Import ListNotations.
Local Open Scope Z_scope.

(** ** Fixed-width integers

    Conversions to the C integer types used by the firmware.  The target is
    a 32-bit ARM (RP2040) compiled with GCC: conversion to a narrower signed
    type wraps modulo a power of two. *)

Module Int.

Definition u8  (z : Z) : Z := z mod 2 ^ 8.
Definition u16 (z : Z) : Z := z mod 2 ^ 16.
Definition u32 (z : Z) : Z := z mod 2 ^ 32.
Definition s8  (z : Z) : Z := (z + 2 ^ 7) mod 2 ^ 8 - 2 ^ 7.
Definition s16 (z : Z) : Z := (z + 2 ^ 15) mod 2 ^ 16 - 2 ^ 15.
Definition s32 (z : Z) : Z := (z + 2 ^ 31) mod 2 ^ 32 - 2 ^ 31.

(** Conversion of an integer to [bool]: non-zero is [true]. *)
Definition to_bool (z : Z) : bool := negb (z =? 0).

(** The value of a C comparison, an [int] that is 0 or 1. *)
Definition of_bool (b : bool) : Z := if b then 1 else 0.

End Int.
Import Int.

(** ** Constants of the headers

    [main.c] includes the TinyUSB and pico-sdk headers; the constants it uses
    from them are listed here with the values those headers give them. *)

(** Modelled from the spec: the keycode of an empty slot of a boot report
    is 0 (TinyUSB, class/hid/hid.h). *)
Definition HID_KEY_NONE : Z := 0x00.

(** Modelled from the spec: the HID keycode of the key A is 0x04,
    scenario S1 (TinyUSB, class/hid/hid.h). *)
Definition HID_KEY_A    : Z := 0x04.

(** Modelled from the spec: bit 0 of the button bitmap of a mouse report is
    the left button (TinyUSB, class/hid/hid.h). *)
Definition MOUSE_BUTTON_LEFT  : Z := 1.

(** Modelled from the spec: bit 1 of the button bitmap is the right
    button. *)
Definition MOUSE_BUTTON_RIGHT : Z := 2.

(** The falling-edge event mask of the GPIO interrupt (pico-sdk,
    hardware/gpio.h). *)
Definition GPIO_IRQ_EDGE_FALL : Z := 0x4.

(** The rising-edge event mask (pico-sdk, hardware/gpio.h). *)
Definition GPIO_IRQ_EDGE_RISE : Z := 0x8.

(** Signalling lines (main.c, lines 19-20). *)
Definition MSCTRL_GPIO : Z := 3.
Definition READY_GPIO  : Z := 5.

(** Host commands (main.c, lines 169-178). *)
Definition KEYB_MSCTRL              : Z := 0x40. (* 0b01000000 *)
Definition KEYB_MSCTRL_MASK         : Z := 0xf8. (* 0b11111000 *)
Definition KEYB_LED_BRIGHTNESS      : Z := 0x54. (* 0b01010100 *)
Definition KEYB_LED_BRIGHTNESS_MASK : Z := 0xfc. (* 0b11111100 *)
Definition KEYB_KEY_INHIBIT         : Z := 0x58. (* 0b01011000 *)
Definition KEYB_KEY_INHIBIT_MASK    : Z := 0xf8. (* 0b11111000 *)
Definition KEYB_REPEAT_DELAY        : Z := 0x60. (* 0b01100000 *)
Definition KEYB_REPEAT_INTERVAL     : Z := 0x70. (* 0b01110000 *)
Definition KEYB_REPEAT_MASK         : Z := 0xf0. (* 0b11110000 *)
Definition KEYB_LED_CTRL_MASK       : Z := 0x80. (* 0b10000000 *)

(** ** HID boot reports

    The two report types come from TinyUSB (class/hid/hid.h). *)

(** Modelled from the spec: the fixed-length array of six 8-bit keycodes of
    a keyboard report, [uint8_t keycode[6]]. *)
Record keycode_array := mkKeys {
  key0 : Z; key1 : Z; key2 : Z; key3 : Z; key4 : Z; key5 : Z
}.

(** The slots of the array in index order: a loop
    [for (i = 0; i < sizeof(keycode); ++i)] visits exactly this list. *)
Definition slots (k : keycode_array) : list Z :=
  [key0 k; key1 k; key2 k; key3 k; key4 k; key5 k].

(** Modelled from the spec: the 8-byte boot-protocol keyboard report, a
    modifier bitmap, a reserved byte and the six keycodes. *)
Record hid_keyboard_report_t := mkKeybReport {
  modifier : Z;               (* uint8_t *)
  reserved : Z;               (* uint8_t *)
  keycode  : keycode_array
}.

(** Modelled from the spec: the boot-protocol mouse report, a button bitmap
    and signed 8-bit deltas. *)
Record hid_mouse_report_t := mkMouseReport {
  buttons : Z;                (* uint8_t *)
  x       : Z;                (* int8_t  *)
  y       : Z;                (* int8_t  *)
  wheel   : Z;                (* int8_t  *)
  pan     : Z                 (* int8_t  *)
}.

Definition no_keys : keycode_array := mkKeys 0 0 0 0 0 0.
Definition zeroReport : hid_keyboard_report_t := mkKeybReport 0 0 no_keys.

(** ** The module-level variables *)

Record State := mkState {
  (* x68000 state *)
  txInhibit          : bool;
  keyInhibit         : bool;
  msctrlAsserted     : bool;
  currentLedLevel    : Z;     (* uint8_t  *)
  currentLedState    : Z;     (* uint8_t  *)
  keyRepeatDelay     : Z;     (* uint16_t *)
  keyRepeatInterval  : Z;     (* uint16_t *)
  (* USB HID state *)
  dx                 : Z;     (* int16_t  *)
  dy                 : Z;     (* int16_t  *)
  lmbPressed         : bool;
  rmbPressed         : bool;
  prevReport         : hid_keyboard_report_t;
  keyRepeatKeyCode   : Z;     (* uint8_t  *)
  keyRepeatCountdown : Z;     (* int32_t  *)
  (* the statics of flashActivityLED *)
  lastUpdated        : Z;     (* uint32_t *)
  activityLED        : bool
}.

(** The values the variables are initialised with. *)
Definition initState : State :=
  mkState false false false 0 0 500 110 0 0 false false zeroReport 0 0 0 false.

Definition set_txInhibit (b : bool) (s : State) : State :=
  mkState b (keyInhibit s) (msctrlAsserted s) (currentLedLevel s)
    (currentLedState s) (keyRepeatDelay s) (keyRepeatInterval s) (dx s) (dy s)
    (lmbPressed s) (rmbPressed s) (prevReport s) (keyRepeatKeyCode s)
    (keyRepeatCountdown s) (lastUpdated s) (activityLED s).

Definition set_keyInhibit (b : bool) (s : State) : State :=
  mkState (txInhibit s) b (msctrlAsserted s) (currentLedLevel s)
    (currentLedState s) (keyRepeatDelay s) (keyRepeatInterval s) (dx s) (dy s)
    (lmbPressed s) (rmbPressed s) (prevReport s) (keyRepeatKeyCode s)
    (keyRepeatCountdown s) (lastUpdated s) (activityLED s).

Definition set_msctrlAsserted (b : bool) (s : State) : State :=
  mkState (txInhibit s) (keyInhibit s) b (currentLedLevel s)
    (currentLedState s) (keyRepeatDelay s) (keyRepeatInterval s) (dx s) (dy s)
    (lmbPressed s) (rmbPressed s) (prevReport s) (keyRepeatKeyCode s)
    (keyRepeatCountdown s) (lastUpdated s) (activityLED s).

Definition set_currentLedLevel (v : Z) (s : State) : State :=
  mkState (txInhibit s) (keyInhibit s) (msctrlAsserted s) v
    (currentLedState s) (keyRepeatDelay s) (keyRepeatInterval s) (dx s) (dy s)
    (lmbPressed s) (rmbPressed s) (prevReport s) (keyRepeatKeyCode s)
    (keyRepeatCountdown s) (lastUpdated s) (activityLED s).

Definition set_currentLedState (v : Z) (s : State) : State :=
  mkState (txInhibit s) (keyInhibit s) (msctrlAsserted s) (currentLedLevel s)
    v (keyRepeatDelay s) (keyRepeatInterval s) (dx s) (dy s)
    (lmbPressed s) (rmbPressed s) (prevReport s) (keyRepeatKeyCode s)
    (keyRepeatCountdown s) (lastUpdated s) (activityLED s).

Definition set_keyRepeatDelay (v : Z) (s : State) : State :=
  mkState (txInhibit s) (keyInhibit s) (msctrlAsserted s) (currentLedLevel s)
    (currentLedState s) v (keyRepeatInterval s) (dx s) (dy s)
    (lmbPressed s) (rmbPressed s) (prevReport s) (keyRepeatKeyCode s)
    (keyRepeatCountdown s) (lastUpdated s) (activityLED s).

Definition set_keyRepeatInterval (v : Z) (s : State) : State :=
  mkState (txInhibit s) (keyInhibit s) (msctrlAsserted s) (currentLedLevel s)
    (currentLedState s) (keyRepeatDelay s) v (dx s) (dy s)
    (lmbPressed s) (rmbPressed s) (prevReport s) (keyRepeatKeyCode s)
    (keyRepeatCountdown s) (lastUpdated s) (activityLED s).

(** The mouse accumulator: [dx], [dy] and the two latched buttons. *)
Definition set_motion (vx vy : Z) (l r : bool) (s : State) : State :=
  mkState (txInhibit s) (keyInhibit s) (msctrlAsserted s) (currentLedLevel s)
    (currentLedState s) (keyRepeatDelay s) (keyRepeatInterval s) vx vy
    l r (prevReport s) (keyRepeatKeyCode s)
    (keyRepeatCountdown s) (lastUpdated s) (activityLED s).

Definition set_prevReport (r : hid_keyboard_report_t) (s : State) : State :=
  mkState (txInhibit s) (keyInhibit s) (msctrlAsserted s) (currentLedLevel s)
    (currentLedState s) (keyRepeatDelay s) (keyRepeatInterval s) (dx s) (dy s)
    (lmbPressed s) (rmbPressed s) r (keyRepeatKeyCode s)
    (keyRepeatCountdown s) (lastUpdated s) (activityLED s).

(** The repeat timer: [keyRepeatKeyCode] and [keyRepeatCountdown]. *)
Definition set_repeat (k c : Z) (s : State) : State :=
  mkState (txInhibit s) (keyInhibit s) (msctrlAsserted s) (currentLedLevel s)
    (currentLedState s) (keyRepeatDelay s) (keyRepeatInterval s) (dx s) (dy s)
    (lmbPressed s) (rmbPressed s) (prevReport s) k c
    (lastUpdated s) (activityLED s).

Definition set_led (t : Z) (b : bool) (s : State) : State :=
  mkState (txInhibit s) (keyInhibit s) (msctrlAsserted s) (currentLedLevel s)
    (currentLedState s) (keyRepeatDelay s) (keyRepeatInterval s) (dx s) (dy s)
    (lmbPressed s) (rmbPressed s) (prevReport s) (keyRepeatKeyCode s)
    (keyRepeatCountdown s) t b.

(** ** Observable effects *)

Inductive output :=
| KeybTx   (b : Z)        (* uart_write_blocking(KEYB_UART, ...), one byte  *)
| MouseTx  (b : Z)        (* uart_write_blocking(MOUSE_UART, ...), one byte *)
| LedFlash (rate : Z)     (* a call of flashActivityLED(rate)               *)
| LedWrite (b : bool).    (* board_led_write(b)                             *)

Definition keyb_bytes (t : list output) : list Z :=
  flat_map (fun o => match o with KeybTx b => [b] | _ => [] end) t.

Definition mouse_bytes (t : list output) : list Z :=
  flat_map (fun o => match o with MouseTx b => [b] | _ => [] end) t.

Definition led_flashes (t : list output) : list Z :=
  flat_map (fun o => match o with LedFlash r => [r] | _ => [] end) t.

(** A procedure of the firmware: it updates the variables and performs a
    list of effects, in order. *)
Definition proc := State -> State * list output.

Definition skip : proc := fun s => (s, []).

Definition seq (p q : proc) : proc := fun s =>
  let (s1, o1) := p s in
  let (s2, o2) := q s1 in
  (s2, o1 ++ o2).

Definition emit (o : list output) : proc := fun s => (s, o).

Definition modify (f : State -> State) : proc := fun s => (f s, []).

Fixpoint for_each {A : Type} (l : list A) (body : A -> proc) : proc :=
  match l with
  | [] => skip
  | a :: l' => seq (body a) (for_each l' body)
  end.

Declare Scope proc_scope.
Delimit Scope proc_scope with proc.
Notation "p ;; q" := (seq p q) (at level 61, right associativity) : proc_scope.

(** ** Translation tables (main.c, lines 276-387) *)

Definition modifierScans : list Z :=
  [ 0x71; 0x70; 0x56; 0x55; 0x59; 0x70; 0x57; 0x58 ].

Definition keycodeScans : list Z :=
  [ 0x1e; 0x2e; 0x2c; 0x20; 0x13; 0x21; 0x22; 0x23; 0x18; 0x24;
    0x25; 0x26; 0x30; 0x2f; 0x19; 0x1a; 0x11; 0x14; 0x1f; 0x15;
    0x17; 0x2d; 0x12; 0x2b; 0x16; 0x2a; 0x02; 0x03; 0x04; 0x05;
    0x06; 0x07; 0x08; 0x09; 0x0a; 0x0b; 0x1d; 0x01; 0x0f; 0x10;
    0x35; 0x0c; 0x0d; 0x1b; 0x1c; 0x0e; 0x29; 0x27; 0x28; 0x60;
    0x31; 0x32; 0x33; 0x5d; 0x63; 0x64; 0x65; 0x66; 0x67; 0x68;
    0x69; 0x6a; 0x6b; 0x6c; 0x5a; 0x5b; 0x62; 0x54; 0x61; 0x5e;
    0x36; 0x38; 0x37; 0x3a; 0x39; 0x3d; 0x3b; 0x3e; 0x3c; 0x3f;
    0x40; 0x41; 0x42; 0x46; 0x4e; 0x4b; 0x4c; 0x4d; 0x47; 0x48;
    0x49; 0x43; 0x44; 0x45; 0x4f; 0x51; 0x0e ].

(** ** The firmware procedures

    [board_millis()] is read from a hardware timer.  Its value is the section
    variable [now]: one reading per handler invocation (the timer is taken
    not to advance inside a handler, which only matters for the instants at
    which the LED is actually toggled). *)

Section Firmware.

Variable now : Z.

Local Open Scope proc_scope.

(** main.c, lines 84-97. *)
Definition flashActivityLED (flashRate : Z) : proc := fun s =>
  let currentTimer := now in
  if u32 (currentTimer - lastUpdated s) <? flashRate
  then (s, [LedFlash flashRate])
  else (set_led (u32 (lastUpdated s + flashRate)) (negb (activityLED s)) s,
        [LedFlash flashRate; LedWrite (activityLED s)]).

(** *** Host command parser (main.c, lines 180-216)

    The body of the [while] loop for one received character.  C binds [==]
    tighter than [&], so the right-hand side of line 197,
    [ch & 0x01 == 0], is [ch & (0x01 == 0)]. *)
Definition uartByte (c : Z) (s : State) : State :=
  let ch := u8 c in
  if Z.land ch KEYB_MSCTRL_MASK =? KEYB_MSCTRL then
    set_msctrlAsserted (Z.land ch 0x01 =? 0) s
  else if Z.land ch KEYB_LED_BRIGHTNESS_MASK =? KEYB_LED_BRIGHTNESS then
    let led_value := u8 (Z.land ch 0x03) in
    set_currentLedLevel led_value s
  else if Z.land ch KEYB_KEY_INHIBIT_MASK =? KEYB_KEY_INHIBIT then
    set_keyInhibit (to_bool (Z.land ch (of_bool (0x01 =? 0)))) s
  else if Z.land ch KEYB_REPEAT_MASK =? KEYB_REPEAT_DELAY then
    let delayMS := u16 (200 + Z.land ch 0x0f * 100) in
    set_keyRepeatDelay delayMS s
  else if Z.land ch KEYB_REPEAT_MASK =? KEYB_REPEAT_INTERVAL then
    let v := u16 (Z.land ch 0x0f) in
    let intervalMS := u16 (30 + v * v * 5) in
    set_keyRepeatInterval intervalMS s
  else if Z.land ch KEYB_LED_CTRL_MASK =? KEYB_LED_CTRL_MASK then
    let led := u8 (Z.land ch 0x7f) in
    set_currentLedState led s
  else s.

(** [rx] is what the receive FIFO of the keyboard UART delivers while the
    loop runs. *)
Definition uartISR (rx : list Z) : proc :=
  modify (fun s => fold_left (fun s c => uartByte c s) rx s).

(** *** Mouse framer (main.c, lines 218-274) *)

(** The bit-fields and the two [int8_t] members of [MouseData]. *)
Record MouseData := mkMouseData {
  Lbtn : bool; Rbtn : bool; unused : Z;
  Xover : bool; Xundr : bool; Yover : bool; Yundr : bool;
  mdx : Z; mdy : Z
}.

(** The [data] view of the union: GCC on a little-endian ARM lays the
    bit-fields out from the least significant bit of the first byte. *)
Definition data (m : MouseData) : list Z :=
  [ Z.lor (of_bool (Lbtn m))
   (Z.lor (Z.shiftl (of_bool (Rbtn m)) 1)
   (Z.lor (Z.shiftl (Z.land (unused m) 3) 2)
   (Z.lor (Z.shiftl (of_bool (Xover m)) 4)
   (Z.lor (Z.shiftl (of_bool (Xundr m)) 5)
   (Z.lor (Z.shiftl (of_bool (Yover m)) 6)
          (Z.shiftl (of_bool (Yundr m)) 7))))));
    u8 (mdx m);
    u8 (mdy m) ].

Definition sendMouse : proc := fun s =>
  if txInhibit s then (s, [])
  else
    let mdata := mkMouseData
      (lmbPressed s) (rmbPressed s) 0
      (127 <? dx s) (dx s <? -128)
      (127 <? dy s) (dy s <? -128)
      (s8 (Z.land (dx s) 0xff)) (s8 (Z.land (dy s) 0xff)) in
    let d0 := nth 0 (data mdata) 0 in
    let d1 := nth 1 (data mdata) 0 in
    let d2 := nth 2 (data mdata) 0 in
    (emit (map MouseTx (data mdata)) ;;
     (* Reset mouse readings *)
     modify (fun s1 => set_motion 0 0 (lmbPressed s1) (rmbPressed s1) s1) ;;
     (* Early-out if packet was empty: ((d0 == d1) == d2) == 0x00 *)
     if of_bool (of_bool (d0 =? d1) =? d2) =? 0x00
     then skip
     else flashActivityLED 100) s.

(** main.c, lines 155-165.  The second test is the assignment
    [gpio = READY_GPIO], whose value is [READY_GPIO]. *)
Definition gpioISR (gpio events : Z) : proc :=
  if (gpio =? MSCTRL_GPIO) && to_bool (Z.land events GPIO_IRQ_EDGE_FALL)
  then sendMouse
  else
    let gpio := READY_GPIO in
    if to_bool gpio
    then modify (set_txInhibit (to_bool (Z.land events GPIO_IRQ_EDGE_FALL)))
    else skip.

(** *** Keyboard diff engine (main.c, lines 389-441, 468-495) *)

Definition sizeof_keycodeScans : Z := Z.of_nat (length keycodeScans).

Definition sendKeycode (keyCode : Z) (make : bool) : proc :=
  if (keyCode <? HID_KEY_A) || (sizeof_keycodeScans <=? keyCode - HID_KEY_A)
  then skip
  else
    let scan := nth (Z.to_nat (keyCode - HID_KEY_A)) keycodeScans 0 in
    let scan := u8 (Z.lor scan (if make then 0x00 else 0x80)) in
    emit [KeybTx scan] ;; flashActivityLED 100.

Definition isPresentInReport (report : hid_keyboard_report_t) (keyCode : Z)
  : bool :=
  existsb (fun k => k =? keyCode) (slots (keycode report)).

(** The body of the loop of [compareKeybReports] for one slot of
    [reportA]. *)
Definition compareSlot (reportB : hid_keyboard_report_t) (make : bool)
  (keyCode : Z) : proc :=
  (* Skip ErrorRollOver, POSTFail & ErrorUndefined *)
  if (keyCode =? HID_KEY_NONE) || (keyCode <=? 0x03) then skip
  else if negb (isPresentInReport reportB keyCode) then
    sendKeycode keyCode make ;;
    (* Record the most recent KEYDOWN, or reset it *)
    (fun s =>
       if make then modify (set_repeat keyCode (keyRepeatDelay s)) s
       else if keyRepeatKeyCode s =? keyCode
            then modify (set_repeat 0 0) s
            else skip s)
  else skip.

Definition compareKeybReports (reportA reportB : hid_keyboard_report_t)
  (make : bool) : proc :=
  for_each (slots (keycode reportA)) (compareSlot reportB make).

(** The modifier loop of [processKeybReport] for bit [i]. *)
Definition modifierBit (report : hid_keyboard_report_t) (modified : Z)
  (i : nat) : proc :=
  let mod_ := Z.shiftl 1 (Z.of_nat i) in
  if to_bool (Z.land modified mod_) then
    let make := to_bool (Z.land (modifier report) mod_) in
    let scan := u8 (Z.lor (nth i modifierScans 0)
                          (if make then 0x00 else 0x80)) in
    emit [KeybTx scan] ;; flashActivityLED 100
  else skip.

Definition processKeybReport (report : hid_keyboard_report_t) : proc :=
  fun s =>
  let prev := prevReport s in
  (* Evaluate modifiers (SHIFT/CTRL/ALT/GUI) *)
  let modified := u8 (Z.lxor (modifier prev) (modifier report)) in
  ((if to_bool modified
    then for_each (List.seq 0 8) (modifierBit report modified)
    else skip) ;;
   (* evaluate BREAK codes (key-up) *)
   compareKeybReports prev report false ;;
   (* evaluate MAKE codes (key-down) *)
   compareKeybReports report prev true ;;
   modify (set_prevReport report)) s.

(** main.c, lines 497-503. *)
Definition processMouseReport (report : hid_mouse_report_t) : proc :=
  modify (fun s =>
    set_motion (s16 (dx s + x report)) (s16 (dy s + y report))
               (to_bool (Z.land (buttons report) MOUSE_BUTTON_LEFT))
               (to_bool (Z.land (buttons report) MOUSE_BUTTON_RIGHT)) s).

(** *** Periodic work (main.c, lines 443-466) *)

(** Lines 446-453: poll the host commands, send a mouse packet when the host
    has just asserted MSCTRL. *)
Definition pollHost (rx : list Z) : proc := fun s =>
  let wasAserted := msctrlAsserted s in
  (uartISR rx ;;
   (fun s1 =>
      let isAsserted := msctrlAsserted s1 in
      if negb wasAserted && isAsserted then sendMouse s1 else skip s1)) s.

(** Lines 455-465: handle key repeats.  [deltaTime] is a [uint32_t], the
    subtraction is done modulo 2^32 and stored in the [int32_t]. *)
Definition keyRepeat (deltaTime : Z) : proc := fun s =>
  if to_bool (keyRepeatCountdown s) then
    let c := s32 (keyRepeatCountdown s - u32 deltaTime) in
    let s1 := set_repeat (keyRepeatKeyCode s) c s in
    if c <=? 0 then
      (sendKeycode (keyRepeatKeyCode s1) true ;;
       (fun s2 => modify (set_repeat (keyRepeatKeyCode s2)
                                     (keyRepeatInterval s2)) s2)) s1
    else (s1, [])
  else (s, []).

Definition processKeybAndMouse (deltaTime : Z) (rx : list Z) : proc :=
  pollHost rx ;; keyRepeat deltaTime.

End Firmware.

(** ** Events

    What can happen to the core: the USB stack delivers a report, the main
    loop runs its periodic work, a signalling line raises an interrupt, the
    main loop calls the heartbeat. *)

Inductive event :=
| KeybReport  (report : hid_keyboard_report_t)
| MouseReport (report : hid_mouse_report_t)
| Tick        (deltaTime : Z) (rx : list Z)
| Gpio        (gpio events : Z)
| Heartbeat.

Definition handle (now : Z) (e : event) : proc :=
  match e with
  | KeybReport r  => processKeybReport now r
  | MouseReport r => processMouseReport r
  | Tick dt rx    => processKeybAndMouse now dt rx
  | Gpio g ev     => gpioISR now g ev
  | Heartbeat     => flashActivityLED now 500
  end.

(** A run: timestamped events handled one after the other. *)
Fixpoint run (es : list (Z * event)) : proc :=
  match es with
  | [] => skip
  | (now, e) :: es' => seq (handle now e) (run es')
  end.

Inductive reachable : State -> Prop :=
| reach_init : reachable initState
| reach_step s now e : reachable s -> reachable (fst (handle now e s)).

(** ** Vocabulary of the properties *)

(** A report with one key down. *)
Definition keys1 (k : Z) : keycode_array := mkKeys k 0 0 0 0 0.

(** The report with the key A down, and the state once the host has pulled
    the READY line low. *)
Definition report_A : hid_keyboard_report_t := mkKeybReport 0 0 (keys1 0x04).

Definition ready_low : State :=
  fst (handle 0 (Gpio READY_GPIO GPIO_IRQ_EDGE_FALL) initState).

(** The state after one mouse report: left button down, moved by (10, -5). *)
Definition mouse_moved : State :=
  fst (processMouseReport (mkMouseReport 0x01 10 (-5) 0 0) initState).

(** The state after one mouse report: left button down, no motion. *)
Definition button_down : State :=
  fst (processMouseReport (mkMouseReport 0x01 0 0 0 0) initState).

(** The state once the key A has been reported down. *)
Definition key_A_down : State := fst (handle 0 (KeybReport report_A) initState).

(** A report that lists the key A in two slots, and the same key in one. *)
Definition report_AA : hid_keyboard_report_t :=
  mkKeybReport 0 0 (mkKeys 0x04 0x04 0 0 0 0).

(** Runs made of reports only. *)
Definition keyb_events (rs : list (Z * hid_keyboard_report_t))
  : list (Z * event) :=
  map (fun tr => (fst tr, KeybReport (snd tr))) rs.

Definition mouse_events (rs : list (Z * hid_mouse_report_t))
  : list (Z * event) :=
  map (fun tr => (fst tr, MouseReport (snd tr))) rs.

Definition is_tick (e : Z * event) : Prop :=
  match snd e with Tick _ _ => True | _ => False end.

(** The byte [sendKeycode] sends for a keycode, none when the keycode has no
    entry in [keycodeScans]. *)
Definition scan_bytes (keyCode : Z) (make : bool) : list Z :=
  if (keyCode <? HID_KEY_A) || (sizeof_keycodeScans <=? keyCode - HID_KEY_A)
  then []
  else [u8 (Z.lor (nth (Z.to_nat (keyCode - HID_KEY_A)) keycodeScans 0)
                  (if make then 0x00 else 0x80))].

(** The keycodes of a report that are neither empty slots nor error
    sentinels, in slot order. *)
Definition pressed (r : hid_keyboard_report_t) : list Z :=
  filter (fun k => negb ((k =? HID_KEY_NONE) || (k <=? 0x03)))
         (slots (keycode r)).

(** The keycodes of [a] that are in no slot of [b]. *)
Definition diff_keys (a b : hid_keyboard_report_t) : list Z :=
  filter (fun k => negb (isPresentInReport b k)) (pressed a).

(** No key is listed in two slots of the report. *)
Definition distinct_keys (r : hid_keyboard_report_t) : Prop :=
  NoDup (pressed r).

(** The bytes of the modifier pass from report [prev] to report [r]. *)
Definition modifier_bytes (prev r : hid_keyboard_report_t) : list Z :=
  let modified := u8 (Z.lxor (modifier prev) (modifier r)) in
  if to_bool modified then
    flat_map (fun i =>
      let mod_ := Z.shiftl 1 (Z.of_nat i) in
      if to_bool (Z.land modified mod_) then
        [u8 (Z.lor (nth i modifierScans 0)
                   (if to_bool (Z.land (modifier r) mod_)
                    then 0x00 else 0x80))]
      else []) (List.seq 0 8)
  else [].

(** The bytes of one keyboard report, from the previous report alone. *)
Definition report_bytes (prev r : hid_keyboard_report_t) : list Z :=
  modifier_bytes prev r
  ++ flat_map (fun k => scan_bytes k false) (diff_keys prev r)
  ++ flat_map (fun k => scan_bytes k true) (diff_keys r prev).

(** Along a list of reports, starting from the previous report [prev]:
    the bytes sent, the keys that went down and the keys that went up, in
    the order in which the passes meet them. *)
Fixpoint reports_bytes (prev : hid_keyboard_report_t)
  (rs : list hid_keyboard_report_t) : list Z :=
  match rs with
  | [] => []
  | r :: rs' => report_bytes prev r ++ reports_bytes r rs'
  end.

Fixpoint made_keys (prev : hid_keyboard_report_t)
  (rs : list hid_keyboard_report_t) : list Z :=
  match rs with
  | [] => []
  | r :: rs' => diff_keys r prev ++ made_keys r rs'
  end.

Fixpoint broken_keys (prev : hid_keyboard_report_t)
  (rs : list hid_keyboard_report_t) : list Z :=
  match rs with
  | [] => []
  | r :: rs' => diff_keys prev r ++ broken_keys r rs'
  end.

(** Reading the keyboard link: a byte whose low seven bits are a modifier
    scancode belongs to the modifier pass; of the others, those with bit 7
    clear are makes, those with bit 7 set are breaks of the scancode in
    their low seven bits. *)
Definition is_modifier_scan (b : Z) : bool :=
  existsb (Z.eqb (Z.land b 0x7f)) modifierScans.

Definition key_makes (bs : list Z) : list Z :=
  filter (fun b => negb (is_modifier_scan b) && negb (Z.testbit b 7)) bs.

Definition key_breaks (bs : list Z) : list Z :=
  map (fun b => Z.land b 0x7f)
      (filter (fun b => negb (is_modifier_scan b) && Z.testbit b 7) bs).

(** Sums of the deltas of a list of mouse reports. *)
Definition sum_x (rs : list (Z * hid_mouse_report_t)) : Z :=
  fold_right (fun tr a => x (snd tr) + a) 0 rs.

Definition sum_y (rs : list (Z * hid_mouse_report_t)) : Z :=
  fold_right (fun tr a => y (snd tr) + a) 0 rs.

(** The accumulation the specification describes: an addition that
    saturates at the bounds of a signed 16-bit integer. *)
Definition spec_saturating_add16 (a b : Z) : Z :=
  Z.max (- 2 ^ 15) (Z.min (2 ^ 15 - 1) (a + b)).

Definition spec_saturating_sum_x (rs : list (Z * hid_mouse_report_t)) : Z :=
  fold_left (fun a tr => spec_saturating_add16 a (x (snd tr))) rs 0.

Definition in_int16 (z : Z) : Prop := - 2 ^ 15 <= z <= 2 ^ 15 - 1.

(** The two shapes of the repeat timer. *)
Definition disarmed (s : State) : Prop :=
  keyRepeatKeyCode s = 0 /\ keyRepeatCountdown s = 0.

Definition armed (s : State) : Prop :=
  keyRepeatKeyCode s <> 0 /\ 0 < keyRepeatCountdown s.

Definition repeat_shape (s : State) : Prop := disarmed s \/ armed s.

(** The host can only program positive repeat times. *)
Definition repeat_times_positive (s : State) : Prop :=
  0 < keyRepeatDelay s /\ 0 < keyRepeatInterval s.

(** Frames: [s'] is [s] up to the statics of the LED routine, or up to
    those and the repeat timer. *)
Definition same_but_led (s s' : State) : Prop :=
  s' = set_led (lastUpdated s') (activityLED s') s.

Definition same_but_repeat_led (s s' : State) : Prop :=
  s' = set_led (lastUpdated s') (activityLED s')
         (set_repeat (keyRepeatKeyCode s') (keyRepeatCountdown s') s).

(** [s'] is [s] up to the mouse accumulator and the LED statics. *)
Definition same_but_motion_led (s s' : State) : Prop :=
  s' = set_led (lastUpdated s') (activityLED s')
         (set_motion (dx s') (dy s') (lmbPressed s') (rmbPressed s') s).

(** [s'] is [s] up to the variables the host commands write. *)
Definition same_but_host_config (s s' : State) : Prop :=
  s' = set_msctrlAsserted (msctrlAsserted s')
        (set_currentLedLevel (currentLedLevel s')
        (set_keyInhibit (keyInhibit s')
        (set_keyRepeatDelay (keyRepeatDelay s')
        (set_keyRepeatInterval (keyRepeatInterval s')
        (set_currentLedState (currentLedState s') s))))).

(** The branch of the [if] chain of [uartByte] a character takes, counted
    from 1 in source order; 0 when the character matches no command. *)
Definition uart_branch (ch : Z) : nat :=
  if Z.land ch KEYB_MSCTRL_MASK =? KEYB_MSCTRL then 1%nat
  else if Z.land ch KEYB_LED_BRIGHTNESS_MASK =? KEYB_LED_BRIGHTNESS then 2%nat
  else if Z.land ch KEYB_KEY_INHIBIT_MASK =? KEYB_KEY_INHIBIT then 3%nat
  else if Z.land ch KEYB_REPEAT_MASK =? KEYB_REPEAT_DELAY then 4%nat
  else if Z.land ch KEYB_REPEAT_MASK =? KEYB_REPEAT_INTERVAL then 5%nat
  else if Z.land ch KEYB_LED_CTRL_MASK =? KEYB_LED_CTRL_MASK then 6%nat
  else 0%nat.

(** The three bytes [sendMouse] builds from the accumulator. *)
Definition frame_of (s : State) : list Z :=
  data (mkMouseData
          (lmbPressed s) (rmbPressed s) 0
          (127 <? dx s) (dx s <? -128)
          (127 <? dy s) (dy s <? -128)
          (s8 (Z.land (dx s) 0xff)) (s8 (Z.land (dy s) 0xff))).

(** The test of line 270 on a frame: [((d0 == d1) == d2) == 0x00]. *)
Definition early_out (frame : list Z) : bool :=
  of_bool (of_bool (nth 0 frame 0 =? nth 1 frame 0) =? nth 2 frame 0) =? 0x00.

(** The invariant of the repeat timer, with what it needs of the
    configuration. *)
Definition repeat_invariant (s : State) : Prop :=
  repeat_shape s /\ repeat_times_positive s.

(** A predicate that holds of every byte value. *)
Definition all_bytes (p : Z -> bool) : bool :=
  forallb p (map Z.of_nat (List.seq 0 256)).

(** ** The main loop (main.c, lines 69-81)

    One iteration of [while (true)].  [lastTimer] is the local of [main];
    [currentTimer] is the reading of the 32-bit millisecond timer taken at
    the top of the iteration, [now] the reading the procedures called in
    the iteration take.  [tuh_task()] belongs to the USB stack: what it does
    to the core is to hand the reports it has received to
    [processKeybReport] and [processMouseReport], here the list
    [reports]. *)
Definition mainLoopBody (currentTimer now : Z) (reports : list (Z * event))
  (rx : list Z) (ls : Z * State) : (Z * State) * list output :=
  let lastTimer := fst ls in
  let currentTimer := u32 currentTimer in
  let deltaTime := u32 (currentTimer - lastTimer) in
  let lastTimer := currentTimer in
  let r1 := flashActivityLED now 500 (snd ls) in
  let r2 := run reports (fst r1) in
  let r3 := processKeybAndMouse now deltaTime rx (fst r2) in
  ((lastTimer, fst r3), snd r1 ++ snd r2 ++ snd r3).

(** ** Bytes of a key

    The byte a key sends according to the table: the entry of
    [keycodeScans] for the keycodes 0x04 to 0x64, with 0x80 added for a
    break; nothing for any other keycode. *)
Definition key_code_byte (keyCode : Z) (make : bool) : list Z :=
  if (HID_KEY_A <=? keyCode) && (keyCode <? HID_KEY_A + 97)
  then [nth (Z.to_nat (keyCode - HID_KEY_A)) keycodeScans 0
        + (if make then 0x00 else 0x80)]
  else [].

(** The state once the key 0x65, the first keycode past the table, has
    been reported down. *)
Definition key_0x65_down : State :=
  fst (handle 0 (KeybReport (mkKeybReport 0 0 (keys1 0x65))) initState).

(** ** Vocabulary of the further properties *)

(** The values handed to [board_led_write], in order. *)
Definition led_writes (t : list output) : list bool :=
  flat_map (fun o => match o with LedWrite b => [b] | _ => [] end) t.

(** [n] values that alternate, starting with [b]. *)
Fixpoint alternating (b : bool) (n : nat) : list bool :=
  match n with
  | O => []
  | S n' => b :: alternating (negb b) n'
  end.

(** [b] negated [n] times. *)
Definition toggled (b : bool) (n : nat) : bool :=
  if Nat.even n then b else negb b.

(** The LED writes of the trace [t], performed from state [s] to state
    [s'], alternate, starting with the value of [activityLED] in [s], and
    [activityLED] has been negated once per write. *)
Definition led_trace (s s' : State) (t : list output) : Prop :=
  led_writes t = alternating (activityLED s) (length (led_writes t))
  /\ activityLED s' = toggled (activityLED s) (length (led_writes t)).

Definition led_proc (p : proc) : Prop :=
  forall s, led_trace s (fst (p s)) (snd (p s)).

(** One call of [flashActivityLED(100)] per byte on the keyboard link. *)
Definition pulse_per_byte (t : list output) : Prop :=
  led_flashes t = repeat 100 (length (keyb_bytes t)).

(** The report a keyboard sends when too many keys are down: ErrorRollOver
    in every slot. *)
Definition report_rollover : hid_keyboard_report_t :=
  mkKeybReport 0 0 (mkKeys 0x01 0x01 0x01 0x01 0x01 0x01).

(** READY low, then a mouse report. *)
Definition ready_low_moved : State :=
  fst (processMouseReport (mkMouseReport 0x01 10 (-5) 0 0) ready_low).

(** The [deltaTime] of a tick, and the time a list of ticks spans. *)
Definition tick_time (e : Z * event) : Z :=
  match snd e with Tick dt _ => dt | _ => 0 end.

Definition elapsed (es : list (Z * event)) : Z :=
  fold_right (fun e a => tick_time e + a) 0 es.

(** The values the variables written by the host commands and by the mouse
    reports can take. *)
Definition config_ranges (s : State) : Prop :=
  0 <= currentLedLevel s <= 3
  /\ 0 <= currentLedState s <= 127
  /\ 200 <= keyRepeatDelay s <= 1700
  /\ 30 <= keyRepeatInterval s <= 1155.

Definition motion_ranges (s : State) : Prop :=
  in_int16 (dx s) /\ in_int16 (dy s).

(** The bytes that match no host command. *)
Definition no_command (ch : Z) : bool :=
  (ch <? 0x40) || ((0x48 <=? ch) && (ch <? 0x54)).

(** The most bytes an event can send on each link. *)
Definition max_keyb_bytes (e : event) : nat :=
  match e with KeybReport _ => 20 | Tick _ _ => 1 | _ => 0 end.

Definition max_mouse_bytes (e : event) : nat :=
  match e with Tick _ _ | Gpio _ _ => 3 | _ => 0 end.

(** ** The scenarios of the specification, run on the model *)

(** S1 and S2: make and break of A, with and without the left shift.  In
    the last report of S2 the modifier pass runs first, so the break of the
    shift key leaves before the break of A. *)
Example scenario_S1 :
  keyb_bytes (snd (run [(0, KeybReport (mkKeybReport 0 0 (keys1 0x04)));
                        (0, KeybReport zeroReport)] initState))
  = [0x1e; 0x9e].
Proof. reflexivity. Qed.

Example scenario_S2 :
  keyb_bytes (snd (run [(0, KeybReport (mkKeybReport 0x02 0 no_keys));
                        (0, KeybReport (mkKeybReport 0x02 0 (keys1 0x04)));
                        (0, KeybReport zeroReport)] initState))
  = [0x70; 0x1e; 0xf0; 0x9e].
Proof. reflexivity. Qed.

(** S3: a held key repeats after the delay, then at every interval. *)
Example scenario_S3 :
  keyb_bytes (snd (run ((0, KeybReport (mkKeybReport 0 0 (keys1 0x04)))
                        :: repeat (0, Tick 100 []) 7
                        ++ [(0, KeybReport zeroReport)]
                        ++ repeat (0, Tick 100 []) 7) initState))
  = [0x1e; 0x1e; 0x1e; 0x9e].
Proof. vm_compute. reflexivity. Qed.

(** S4: the repeat-delay command. *)
Example scenario_S4 :
  keyRepeatDelay (fst (run [(0, Tick 0 [0x65])] initState)) = 700.
Proof. reflexivity. Qed.

(** S5 and S6: mouse frames. *)
Example scenario_S5 :
  mouse_bytes (snd (run [(0, MouseReport (mkMouseReport 0x01 10 (-5) 0 0));
                         (0, MouseReport (mkMouseReport 0x01 3 (-2) 0 0));
                         (0, Gpio MSCTRL_GPIO GPIO_IRQ_EDGE_FALL)] initState))
  = [0x01; 0x0d; 0xf9].
Proof. reflexivity. Qed.

Example scenario_S6 :
  mouse_bytes (snd (run [(0, MouseReport (mkMouseReport 0 100 0 0 0));
                         (0, MouseReport (mkMouseReport 0 100 0 0 0));
                         (0, MouseReport (mkMouseReport 0 100 0 0 0));
                         (0, Gpio MSCTRL_GPIO GPIO_IRQ_EDGE_FALL);
                         (0, Gpio MSCTRL_GPIO GPIO_IRQ_EDGE_FALL)] initState))
  = [0x10; 0x2c; 0x00; 0x00; 0x00; 0x00].
Proof. reflexivity. Qed.

(** * Properties *)

(** ** Integer conversions *)

Lemma u8_range z : 0 <= u8 z < 256.
Proof. unfold u8. apply Z.mod_pos_bound. reflexivity. Qed.

Lemma u8_small z : 0 <= z < 256 -> u8 z = z.
Proof. intros H. unfold u8. apply Z.mod_small. exact H. Qed.

Lemma u8_s8 z : u8 (s8 z) = u8 z.
Proof.
  unfold u8, s8. rewrite Zminus_mod_idemp_l. f_equal. lia.
Qed.

Lemma s8_u8_small z : - 128 <= z <= 127 -> s8 (u8 z) = z.
Proof.
  intros H. unfold u8, s8. rewrite Zplus_mod_idemp_l.
  rewrite Z.mod_small by lia. lia.
Qed.

Lemma land_255 z : Z.land z 0xff = u8 z.
Proof. unfold u8. change 0xff with (Z.ones 8). apply Z.land_ones. lia. Qed.

Lemma s16_idem a b : s16 (s16 a + b) = s16 (a + b).
Proof.
  unfold s16. f_equal.
  replace ((a + 2 ^ 15) mod 2 ^ 16 - 2 ^ 15 + b + 2 ^ 15)
    with ((a + 2 ^ 15) mod 2 ^ 16 + b) by lia.
  rewrite Zplus_mod_idemp_l. f_equal. lia.
Qed.

Lemma s16_small z : in_int16 z -> s16 z = z.
Proof.
  unfold in_int16, s16. intros H. rewrite Z.mod_small by lia. lia.
Qed.

Lemma s16_range z : in_int16 (s16 z).
Proof.
  unfold in_int16, s16.
  pose proof (Z.mod_pos_bound (z + 2 ^ 15) (2 ^ 16) ltac:(reflexivity)). lia.
Qed.

Lemma s32_small z : - 2 ^ 31 <= z < 2 ^ 31 -> s32 z = z.
Proof. unfold s32. intros H. rewrite Z.mod_small by lia. lia. Qed.

Lemma u32_small z : 0 <= z < 2 ^ 32 -> u32 z = z.
Proof. unfold u32. intros H. apply Z.mod_small. exact H. Qed.

Lemma to_bool_land_1 b : to_bool (Z.land b 1) = Z.testbit b 0.
Proof.
  unfold to_bool. change 1 with (Z.ones 1) at 1.
  rewrite Z.land_ones by lia. rewrite Z.bit0_odd, <- Z.negb_even.
  rewrite Zeven_mod. change (2 ^ 1) with 2. reflexivity.
Qed.

Lemma to_bool_land_2 b : to_bool (Z.land b 2) = Z.testbit b 1.
Proof.
  unfold to_bool. destruct (Z.testbit b 1) eqn:Hb.
  - destruct (Z.eqb_spec (Z.land b 2) 0) as [E|E]; [|reflexivity].
    assert (H : Z.testbit (Z.land b 2) 1 = true).
    { rewrite Z.land_spec, Hb. reflexivity. }
    rewrite E in H. discriminate H.
  - assert (E : Z.land b 2 = 0).
    { apply Z.bits_inj'. intros n Hn. rewrite Z.land_spec, Z.bits_0.
      change 2 with (2 ^ 1). rewrite Z.pow2_bits_eqb by lia.
      destruct (Z.eqb_spec 1 n) as [<-|_].
      - rewrite Hb. reflexivity.
      - apply andb_false_r. }
    rewrite E. reflexivity.
Qed.

(** A property checked on the 256 byte values holds of every byte. *)
Lemma all_bytes_spec p :
  all_bytes p = true -> forall c, 0 <= c < 256 -> p c = true.
Proof.
  unfold all_bytes. intros H c Hc.
  rewrite forallb_forall in H. apply H.
  apply in_map_iff. exists (Z.to_nat c). split; [lia|].
  apply in_seq. lia.
Qed.

(** ** Sequencing and traces *)

Lemma seq_fst p q s : fst (seq p q s) = fst (q (fst (p s))).
Proof.
  unfold seq. destruct (p s) as [s1 o1]. simpl. destruct (q s1).
  reflexivity.
Qed.

Lemma seq_snd p q s :
  snd (seq p q s) = snd (p s) ++ snd (q (fst (p s))).
Proof.
  unfold seq. destruct (p s) as [s1 o1]. simpl. destruct (q s1).
  reflexivity.
Qed.

Lemma keyb_bytes_app t u : keyb_bytes (t ++ u) = keyb_bytes t ++ keyb_bytes u.
Proof. apply flat_map_app. Qed.

Lemma mouse_bytes_app t u :
  mouse_bytes (t ++ u) = mouse_bytes t ++ mouse_bytes u.
Proof. apply flat_map_app. Qed.

Lemma led_flashes_app t u :
  led_flashes (t ++ u) = led_flashes t ++ led_flashes u.
Proof. apply flat_map_app. Qed.

Lemma seq_assoc p q r s : seq p (seq q r) s = seq (seq p q) r s.
Proof.
  unfold seq. destruct (p s) as [s1 o1]. destruct (q s1) as [s2 o2].
  destruct (r s2) as [s3 o3]. rewrite app_assoc. reflexivity.
Qed.

Lemma seq_ext p q q' s : (forall s1, q s1 = q' s1) -> seq p q s = seq p q' s.
Proof.
  intros H. unfold seq. destruct (p s) as [s1 o1]. rewrite H. reflexivity.
Qed.

Lemma run_app es1 es2 s :
  run (es1 ++ es2) s = seq (run es1) (run es2) s.
Proof.
  revert s. induction es1 as [|[now e] es1 IH]; intros s; simpl.
  - unfold seq, skip. destruct (run es2 s). reflexivity.
  - rewrite <- seq_assoc. apply seq_ext. exact IH.
Qed.

(** ** Frames *)

Lemma same_but_led_refl s : same_but_led s s.
Proof. destruct s. reflexivity. Qed.

Lemma same_but_led_trans s1 s2 s3 :
  same_but_led s1 s2 -> same_but_led s2 s3 -> same_but_led s1 s3.
Proof.
  unfold same_but_led. intros H12 H23. rewrite H23 at 1. rewrite H12 at 1.
  destruct s1. reflexivity.
Qed.

Lemma same_but_repeat_led_refl s : same_but_repeat_led s s.
Proof. destruct s. reflexivity. Qed.

Lemma same_but_repeat_led_trans s1 s2 s3 :
  same_but_repeat_led s1 s2 -> same_but_repeat_led s2 s3 ->
  same_but_repeat_led s1 s3.
Proof.
  unfold same_but_repeat_led. intros H12 H23. rewrite H23 at 1.
  rewrite H12 at 1. destruct s1. reflexivity.
Qed.

Lemma same_but_led_repeat s s' :
  same_but_led s s' -> same_but_repeat_led s s'.
Proof.
  unfold same_but_led, same_but_repeat_led. intros H. rewrite H at 1.
  rewrite H. destruct s. reflexivity.
Qed.

(** ** Loops *)

Section ForEach.

Context {A : Type} (body : A -> proc).

Lemma for_each_frame (R : State -> State -> Prop) :
  (forall s, R s s) ->
  (forall s1 s2 s3, R s1 s2 -> R s2 s3 -> R s1 s3) ->
  (forall a s, R s (fst (body a s))) ->
  forall l s, R s (fst (for_each l body s)).
Proof.
  intros Hrefl Htrans Hbody l. induction l as [|a l IH]; intros s; simpl.
  - apply Hrefl.
  - rewrite seq_fst. eapply Htrans; [apply Hbody | apply IH].
Qed.

Lemma for_each_invariant (I : State -> Prop) :
  (forall a s, I s -> I (fst (body a s))) ->
  forall l s, I s -> I (fst (for_each l body s)).
Proof.
  intros Hbody l. induction l as [|a l IH]; intros s Hs; simpl.
  - exact Hs.
  - rewrite seq_fst. apply IH, Hbody, Hs.
Qed.

Lemma for_each_keyb_bytes (f : A -> list Z) :
  (forall a s, keyb_bytes (snd (body a s)) = f a) ->
  forall l s, keyb_bytes (snd (for_each l body s)) = flat_map f l.
Proof.
  intros Hbody l. induction l as [|a l IH]; intros s; simpl.
  - reflexivity.
  - rewrite seq_snd, keyb_bytes_app, Hbody, IH. reflexivity.
Qed.

Lemma for_each_no_mouse_bytes :
  (forall a s, mouse_bytes (snd (body a s)) = []) ->
  forall l s, mouse_bytes (snd (for_each l body s)) = [].
Proof.
  intros Hbody l. induction l as [|a l IH]; intros s; simpl.
  - reflexivity.
  - rewrite seq_snd, mouse_bytes_app, Hbody, IH. reflexivity.
Qed.

End ForEach.

Lemma flat_map_if_filter {A B : Type} (p : A -> bool) (f : A -> list B) l :
  flat_map (fun a => if p a then f a else []) l = flat_map f (filter p l).
Proof.
  induction l as [|a l IH]; simpl; [reflexivity|].
  destruct (p a); simpl; rewrite IH; reflexivity.
Qed.

Lemma filter_filter {A : Type} (p q : A -> bool) l :
  filter q (filter p l) = filter (fun a => p a && q a) l.
Proof.
  induction l as [|a l IH]; simpl; [reflexivity|].
  destruct (p a); simpl; [destruct (q a)|]; rewrite IH; reflexivity.
Qed.

(** ** The activity LED and the keyboard sink *)

Section Sinks.

Variable now : Z.

Lemma flashActivityLED_frame rate s :
  same_but_led s (fst (flashActivityLED now rate s)).
Proof.
  unfold flashActivityLED, same_but_led.
  destruct (_ <? _); destruct s; reflexivity.
Qed.

Lemma flashActivityLED_keyb rate s :
  keyb_bytes (snd (flashActivityLED now rate s)) = [].
Proof. unfold flashActivityLED. destruct (_ <? _); reflexivity. Qed.

Lemma flashActivityLED_mouse rate s :
  mouse_bytes (snd (flashActivityLED now rate s)) = [].
Proof. unfold flashActivityLED. destruct (_ <? _); reflexivity. Qed.

Lemma flashActivityLED_flashes rate s :
  led_flashes (snd (flashActivityLED now rate s)) = [rate].
Proof. unfold flashActivityLED. destruct (_ <? _); reflexivity. Qed.

Lemma sendKeycode_frame k m s :
  same_but_led s (fst (sendKeycode now k m s)).
Proof.
  unfold sendKeycode. destruct (_ || _).
  - apply same_but_led_refl.
  - rewrite seq_fst. apply flashActivityLED_frame.
Qed.

Lemma sendKeycode_keyb k m s :
  keyb_bytes (snd (sendKeycode now k m s)) = scan_bytes k m.
Proof.
  unfold sendKeycode, scan_bytes. destruct (_ || _).
  - reflexivity.
  - rewrite seq_snd, keyb_bytes_app, flashActivityLED_keyb. reflexivity.
Qed.

Lemma sendKeycode_mouse k m s :
  mouse_bytes (snd (sendKeycode now k m s)) = [].
Proof.
  unfold sendKeycode. destruct (_ || _).
  - reflexivity.
  - rewrite seq_snd, mouse_bytes_app, flashActivityLED_mouse. reflexivity.
Qed.

(** *** One slot of a comparison *)

Lemma compareSlot_frame b m k s :
  same_but_repeat_led s (fst (compareSlot now b m k s)).
Proof.
  unfold compareSlot.
  destruct (_ || _); [apply same_but_repeat_led_refl|].
  destruct (negb _); [|apply same_but_repeat_led_refl].
  rewrite seq_fst.
  apply same_but_repeat_led_trans with (s2 := fst (sendKeycode now k m s)).
  - apply same_but_led_repeat, sendKeycode_frame.
  - generalize (fst (sendKeycode now k m s)). intros s1.
    unfold same_but_repeat_led, modify, skip.
    destruct m; [|destruct (_ =? _)]; destruct s1; reflexivity.
Qed.

Lemma compareSlot_keyb b m k s :
  keyb_bytes (snd (compareSlot now b m k s))
  = if negb ((k =? HID_KEY_NONE) || (k <=? 0x03))
       && negb (isPresentInReport b k)
    then scan_bytes k m else [].
Proof.
  unfold compareSlot.
  destruct (_ || _); [reflexivity|].
  destruct (negb _); [|reflexivity]. simpl andb. cbv iota.
  rewrite seq_snd, keyb_bytes_app, sendKeycode_keyb.
  destruct m; [|destruct (_ =? _)]; simpl; apply app_nil_r.
Qed.

Lemma compareSlot_mouse b m k s :
  mouse_bytes (snd (compareSlot now b m k s)) = [].
Proof.
  unfold compareSlot.
  destruct (_ || _); [reflexivity|].
  destruct (negb _); [|reflexivity].
  rewrite seq_snd, mouse_bytes_app, sendKeycode_mouse.
  destruct m; [|destruct (_ =? _)]; reflexivity.
Qed.

Lemma compareKeybReports_frame a b m s :
  same_but_repeat_led s (fst (compareKeybReports now a b m s)).
Proof.
  unfold compareKeybReports. apply for_each_frame.
  - apply same_but_repeat_led_refl.
  - apply same_but_repeat_led_trans.
  - intros k s1. apply compareSlot_frame.
Qed.

Lemma compareKeybReports_keyb a b m s :
  keyb_bytes (snd (compareKeybReports now a b m s))
  = flat_map (fun k => scan_bytes k m) (diff_keys a b).
Proof.
  unfold compareKeybReports, diff_keys, pressed.
  rewrite (for_each_keyb_bytes _ _ (compareSlot_keyb b m)).
  rewrite flat_map_if_filter, filter_filter. reflexivity.
Qed.

Lemma compareKeybReports_mouse a b m s :
  mouse_bytes (snd (compareKeybReports now a b m s)) = [].
Proof.
  unfold compareKeybReports. apply for_each_no_mouse_bytes.
  intros k s1. apply compareSlot_mouse.
Qed.

End Sinks.

(** ** Keyboard reports *)

Section KeyboardReports.

Variable now : Z.

Lemma modifierBit_frame r md i s :
  same_but_led s (fst (modifierBit now r md i s)).
Proof.
  unfold modifierBit. destruct (to_bool _).
  - rewrite seq_fst. apply flashActivityLED_frame.
  - apply same_but_led_refl.
Qed.

Lemma modifierBit_keyb r md i s :
  keyb_bytes (snd (modifierBit now r md i s))
  = let mod_ := Z.shiftl 1 (Z.of_nat i) in
    if to_bool (Z.land md mod_) then
      [u8 (Z.lor (nth i modifierScans 0)
                 (if to_bool (Z.land (modifier r) mod_) then 0x00 else 0x80))]
    else [].
Proof.
  unfold modifierBit. cbv zeta. destruct (to_bool (Z.land md _)).
  - rewrite seq_snd, keyb_bytes_app, flashActivityLED_keyb. reflexivity.
  - reflexivity.
Qed.

Lemma modifierBit_mouse r md i s :
  mouse_bytes (snd (modifierBit now r md i s)) = [].
Proof.
  unfold modifierBit. destruct (to_bool _).
  - rewrite seq_snd, mouse_bytes_app, flashActivityLED_mouse. reflexivity.
  - reflexivity.
Qed.

Lemma processKeybReport_keyb r s :
  keyb_bytes (snd (processKeybReport now r s)) = report_bytes (prevReport s) r.
Proof.
  unfold processKeybReport, report_bytes, modifier_bytes. cbv zeta.
  rewrite !seq_snd, !keyb_bytes_app, !compareKeybReports_keyb.
  change (keyb_bytes (snd (modify _ _))) with (@nil Z). rewrite app_nil_r.
  f_equal. destruct (to_bool _).
  - apply for_each_keyb_bytes. intros i s1. apply modifierBit_keyb.
  - reflexivity.
Qed.

Lemma modifier_pass_mouse r md s :
  mouse_bytes (snd ((if to_bool md
                     then for_each (List.seq 0 8) (modifierBit now r md)
                     else skip) s)) = [].
Proof.
  destruct (to_bool md); [|reflexivity].
  apply for_each_no_mouse_bytes. intros i s1. apply modifierBit_mouse.
Qed.

Lemma processKeybReport_mouse r s :
  mouse_bytes (snd (processKeybReport now r s)) = [].
Proof.
  unfold processKeybReport. cbv zeta.
  rewrite !seq_snd, !mouse_bytes_app, !compareKeybReports_mouse.
  rewrite modifier_pass_mouse. reflexivity.
Qed.

Lemma processKeybReport_prevReport r s :
  prevReport (fst (processKeybReport now r s)) = r.
Proof.
  unfold processKeybReport. cbv zeta. rewrite !seq_fst. reflexivity.
Qed.

Lemma processKeybReport_frame r s :
  exists s1, same_but_repeat_led s s1
             /\ fst (processKeybReport now r s) = set_prevReport r s1.
Proof.
  unfold processKeybReport. cbv zeta. rewrite !seq_fst.
  eexists. split; [|reflexivity].
  eapply same_but_repeat_led_trans;
    [|eapply same_but_repeat_led_trans;
      [apply compareKeybReports_frame|apply compareKeybReports_frame]].
  apply same_but_led_repeat. destruct (to_bool _).
  - apply for_each_frame.
    + apply same_but_led_refl.
    + apply same_but_led_trans.
    + intros i s1. apply modifierBit_frame.
  - apply same_but_led_refl.
Qed.

End KeyboardReports.

(** ** Host commands *)

Lemma same_but_host_config_refl s : same_but_host_config s s.
Proof. destruct s. reflexivity. Qed.

Lemma same_but_host_config_trans s1 s2 s3 :
  same_but_host_config s1 s2 -> same_but_host_config s2 s3 ->
  same_but_host_config s1 s3.
Proof.
  unfold same_but_host_config. intros H12 H23. rewrite H23 at 1.
  rewrite H12 at 1. destruct s1. reflexivity.
Qed.

Lemma uartByte_branch c s :
  uartByte c s =
  let ch := u8 c in
  match uart_branch ch with
  | 1%nat => set_msctrlAsserted (Z.land ch 0x01 =? 0) s
  | 2%nat => set_currentLedLevel (u8 (Z.land ch 0x03)) s
  | 3%nat => set_keyInhibit false s
  | 4%nat => set_keyRepeatDelay (u16 (200 + Z.land ch 0x0f * 100)) s
  | 5%nat => set_keyRepeatInterval
           (u16 (30 + u16 (Z.land ch 0x0f) * u16 (Z.land ch 0x0f) * 5)) s
  | 6%nat => set_currentLedState (u8 (Z.land ch 0x7f)) s
  | _ => s
  end.
Proof.
  unfold uartByte, uart_branch. cbv zeta.
  change (of_bool (0x01 =? 0)) with 0. rewrite Z.land_0_r.
  repeat match goal with
         | |- context [if Z.land ?a ?m =? ?p then _ else _] =>
             destruct (Z.land a m =? p); [reflexivity|]
         end.
  reflexivity.
Qed.

Lemma uartByte_frame c s : same_but_host_config s (uartByte c s).
Proof.
  rewrite uartByte_branch. cbv zeta. unfold same_but_host_config.
  destruct (uart_branch (u8 c)) as [|[|[|[|[|[|[|n]]]]]]];
    destruct s; reflexivity.
Qed.

Lemma uartISR_fold_frame rx s :
  same_but_host_config s (fold_left (fun s c => uartByte c s) rx s).
Proof.
  revert s. induction rx as [|c rx IH]; intros s; simpl.
  - apply same_but_host_config_refl.
  - eapply same_but_host_config_trans; [apply uartByte_frame | apply IH].
Qed.

Lemma uartISR_frame rx s : same_but_host_config s (fst (uartISR rx s)).
Proof. apply uartISR_fold_frame. Qed.

Lemma uartISR_silent rx s : snd (uartISR rx s) = [].
Proof. reflexivity. Qed.

Lemma land_15 z : Z.land z 0x0f = z mod 16.
Proof. change 0x0f with (Z.ones 4). apply Z.land_ones. lia. Qed.

Lemma uartByte_times_positive c s :
  repeat_times_positive s -> repeat_times_positive (uartByte c s).
Proof.
  intros [Hd Hi]. rewrite uartByte_branch. cbv zeta.
  unfold repeat_times_positive.
  destruct (uart_branch (u8 c)) as [|[|[|[|[|[|[|n]]]]]]];
    (split;
     [change (keyRepeatDelay (set_keyRepeatDelay ?v _)) with v
     |change (keyRepeatInterval (set_keyRepeatInterval ?v _)) with v];
     try assumption).
  - rewrite land_15.
    pose proof (Z.mod_pos_bound (u8 c) 16 ltac:(reflexivity)) as Hb.
    unfold u16. rewrite Z.mod_small; lia.
  - rewrite land_15.
    pose proof (Z.mod_pos_bound (u8 c) 16 ltac:(reflexivity)) as Hb.
    unfold u16. rewrite (Z.mod_small (u8 c mod 16)) by lia.
    rewrite Z.mod_small; nia.
Qed.

Lemma uartByte_keyInhibit c s :
  keyInhibit s = false -> keyInhibit (uartByte c s) = false.
Proof.
  intros H. rewrite uartByte_branch. cbv zeta.
  destruct (uart_branch (u8 c)) as [|[|[|[|[|[|[|n]]]]]]];
    simpl; try assumption; reflexivity.
Qed.


(** ** The mouse framer *)

Section Mouse.

Variable now : Z.

Lemma same_but_motion_led_refl s : same_but_motion_led s s.
Proof. destruct s. reflexivity. Qed.

Lemma sendMouse_inhibited s :
  txInhibit s = true -> sendMouse now s = (s, []).
Proof. intros H. unfold sendMouse. rewrite H. reflexivity. Qed.

(** What [sendMouse] does when transmission is not inhibited: the frame,
    then the reset of the deltas, then the LED routine unless line 270
    returns early. *)
Lemma sendMouse_uninhibited s :
  txInhibit s = false ->
  sendMouse now s =
  let s1 := set_motion 0 0 (lmbPressed s) (rmbPressed s) s in
  if early_out (frame_of s)
  then (s1, map MouseTx (frame_of s))
  else (fst (flashActivityLED now 100 s1),
        map MouseTx (frame_of s) ++ snd (flashActivityLED now 100 s1)).
Proof.
  intros H. unfold sendMouse. rewrite H. cbv zeta.
  fold (frame_of s). fold (early_out (frame_of s)).
  destruct (early_out (frame_of s)); unfold seq, emit, modify, skip.
  - rewrite app_nil_r. reflexivity.
  - destruct (flashActivityLED now 100 _) as [s2 o2]. reflexivity.
Qed.

Lemma mouse_bytes_map_MouseTx l : mouse_bytes (map MouseTx l) = l.
Proof. induction l as [|b l IH]; simpl; [|rewrite IH]; reflexivity. Qed.

Lemma keyb_bytes_map_MouseTx l : keyb_bytes (map MouseTx l) = [].
Proof. induction l as [|b l IH]; simpl; [|rewrite IH]; reflexivity. Qed.

Lemma led_flashes_map_MouseTx l : led_flashes (map MouseTx l) = [].
Proof. induction l as [|b l IH]; simpl; [|rewrite IH]; reflexivity. Qed.

Lemma sendMouse_mouse s :
  mouse_bytes (snd (sendMouse now s))
  = if txInhibit s then [] else frame_of s.
Proof.
  destruct (txInhibit s) eqn:H.
  - rewrite sendMouse_inhibited by exact H. reflexivity.
  - rewrite sendMouse_uninhibited by exact H. cbv zeta.
    destruct (early_out _); cbn [snd].
    + apply mouse_bytes_map_MouseTx.
    + rewrite mouse_bytes_app, mouse_bytes_map_MouseTx,
        flashActivityLED_mouse. apply app_nil_r.
Qed.

Lemma sendMouse_keyb s : keyb_bytes (snd (sendMouse now s)) = [].
Proof.
  destruct (txInhibit s) eqn:H.
  - rewrite sendMouse_inhibited by exact H. reflexivity.
  - rewrite sendMouse_uninhibited by exact H. cbv zeta.
    destruct (early_out _); cbn [snd].
    + apply keyb_bytes_map_MouseTx.
    + rewrite keyb_bytes_app, keyb_bytes_map_MouseTx,
        flashActivityLED_keyb. reflexivity.
Qed.

Lemma sendMouse_flashes s :
  led_flashes (snd (sendMouse now s))
  = if txInhibit s || early_out (frame_of s) then [] else [100].
Proof.
  destruct (txInhibit s) eqn:H.
  - rewrite sendMouse_inhibited by exact H. reflexivity.
  - rewrite sendMouse_uninhibited by exact H. cbv zeta. simpl orb.
    destruct (early_out _); cbn [snd].
    + apply led_flashes_map_MouseTx.
    + rewrite led_flashes_app, led_flashes_map_MouseTx,
        flashActivityLED_flashes. reflexivity.
Qed.

Lemma sendMouse_frame s : same_but_motion_led s (fst (sendMouse now s)).
Proof.
  destruct (txInhibit s) eqn:H.
  - rewrite sendMouse_inhibited by exact H. apply same_but_motion_led_refl.
  - rewrite sendMouse_uninhibited by exact H. cbv zeta.
    destruct (early_out _); cbn [fst].
    + destruct s; reflexivity.
    + pose proof (flashActivityLED_frame now 100
                    (set_motion 0 0 (lmbPressed s) (rmbPressed s) s)) as Hf.
      unfold same_but_led in Hf. unfold same_but_motion_led.
      rewrite Hf at 1. rewrite Hf. destruct s; reflexivity.
Qed.

Lemma sendMouse_motion s :
  txInhibit s = false ->
  let s' := fst (sendMouse now s) in
  dx s' = 0 /\ dy s' = 0
  /\ lmbPressed s' = lmbPressed s /\ rmbPressed s' = rmbPressed s.
Proof.
  intros H. rewrite sendMouse_uninhibited by exact H. cbv zeta.
  destruct (early_out _); cbn [fst].
  - repeat split.
  - pose proof (flashActivityLED_frame now 100
                  (set_motion 0 0 (lmbPressed s) (rmbPressed s) s)) as Hf.
    unfold same_but_led in Hf. rewrite Hf. repeat split.
Qed.

(** *** The frame *)

Lemma u8_s8_land z : u8 (s8 (Z.land z 0xff)) = u8 z.
Proof.
  rewrite u8_s8, land_255. unfold u8. apply Z.mod_mod. discriminate.
Qed.

Lemma frame_of_bytes s :
  frame_of s = [nth 0 (frame_of s) 0; u8 (dx s); u8 (dy s)].
Proof.
  unfold frame_of, data. cbn [mdx mdy nth].
  rewrite !u8_s8_land. reflexivity.
Qed.

Lemma frame_of_status s :
  let b0 := nth 0 (frame_of s) 0 in
  Z.testbit b0 0 = lmbPressed s
  /\ Z.testbit b0 1 = rmbPressed s
  /\ Z.testbit b0 2 = false
  /\ Z.testbit b0 3 = false
  /\ Z.testbit b0 4 = (127 <? dx s)
  /\ Z.testbit b0 5 = (dx s <? -128)
  /\ Z.testbit b0 6 = (127 <? dy s)
  /\ Z.testbit b0 7 = (dy s <? -128).
Proof.
  unfold frame_of, data.
  cbn [nth Lbtn Rbtn unused Xover Xundr Yover Yundr].
  destruct (lmbPressed s), (rmbPressed s), (127 <? dx s), (dx s <? -128),
    (127 <? dy s), (dy s <? -128); vm_compute; repeat split.
Qed.

End Mouse.

(** ** What the frames preserve *)

Lemma host_config_fields s s' :
  same_but_host_config s s' ->
  txInhibit s' = txInhibit s
  /\ (dx s' = dx s /\ dy s' = dy s
      /\ lmbPressed s' = lmbPressed s /\ rmbPressed s' = rmbPressed s)
  /\ prevReport s' = prevReport s
  /\ keyRepeatKeyCode s' = keyRepeatKeyCode s
  /\ keyRepeatCountdown s' = keyRepeatCountdown s.
Proof. unfold same_but_host_config. intros H. rewrite H. repeat split. Qed.

Lemma motion_led_fields s s' :
  same_but_motion_led s s' ->
  txInhibit s' = txInhibit s
  /\ keyInhibit s' = keyInhibit s
  /\ (keyRepeatDelay s' = keyRepeatDelay s
      /\ keyRepeatInterval s' = keyRepeatInterval s)
  /\ prevReport s' = prevReport s
  /\ keyRepeatKeyCode s' = keyRepeatKeyCode s
  /\ keyRepeatCountdown s' = keyRepeatCountdown s.
Proof. unfold same_but_motion_led. intros H. rewrite H. repeat split. Qed.

Lemma repeat_led_fields s s' :
  same_but_repeat_led s s' ->
  txInhibit s' = txInhibit s
  /\ keyInhibit s' = keyInhibit s
  /\ (keyRepeatDelay s' = keyRepeatDelay s
      /\ keyRepeatInterval s' = keyRepeatInterval s)
  /\ (dx s' = dx s /\ dy s' = dy s
      /\ lmbPressed s' = lmbPressed s /\ rmbPressed s' = rmbPressed s)
  /\ prevReport s' = prevReport s.
Proof. unfold same_but_repeat_led. intros H. rewrite H. repeat split. Qed.

Lemma led_fields s s' :
  same_but_led s s' ->
  same_but_repeat_led s s'
  /\ keyRepeatKeyCode s' = keyRepeatKeyCode s
  /\ keyRepeatCountdown s' = keyRepeatCountdown s.
Proof.
  intros H. split; [apply same_but_led_repeat, H|].
  unfold same_but_led in H. rewrite H. split; reflexivity.
Qed.

Lemma frame_of_motion s s' :
  dx s' = dx s /\ dy s' = dy s
  /\ lmbPressed s' = lmbPressed s /\ rmbPressed s' = rmbPressed s ->
  frame_of s' = frame_of s.
Proof.
  intros (Hx & Hy & Hl & Hr). unfold frame_of. rewrite Hx, Hy, Hl, Hr.
  reflexivity.
Qed.


(** ** The periodic work *)

Section Periodic.

Variable now : Z.

Lemma pollHost_unfold rx s :
  pollHost now rx s =
  let s1 := fst (uartISR rx s) in
  if negb (msctrlAsserted s) && msctrlAsserted s1
  then sendMouse now s1 else (s1, []).
Proof.
  unfold pollHost, seq, uartISR, modify. cbn [fst]. cbv zeta.
  destruct (negb _ && _).
  - destruct (sendMouse now _). reflexivity.
  - reflexivity.
Qed.

Lemma pollHost_keyb rx s : keyb_bytes (snd (pollHost now rx s)) = [].
Proof.
  rewrite pollHost_unfold. cbv zeta. destruct (negb _ && _).
  - apply sendMouse_keyb.
  - reflexivity.
Qed.

Lemma pollHost_mouse rx s :
  mouse_bytes (snd (pollHost now rx s))
  = if negb (msctrlAsserted s) && msctrlAsserted (fst (uartISR rx s))
    then if txInhibit s then [] else frame_of s
    else [].
Proof.
  rewrite pollHost_unfold. cbv zeta. destruct (negb _ && _).
  - rewrite sendMouse_mouse.
    destruct (host_config_fields _ _ (uartISR_frame rx s))
      as (Ht & Hm & _).
    rewrite Ht, (frame_of_motion _ _ Hm). reflexivity.
  - reflexivity.
Qed.

(** [pollHost] leaves the inhibit line, the repeat timer and the previous
    report alone, and the repeat times are those the commands left. *)
Lemma pollHost_frame rx s :
  let s' := fst (pollHost now rx s) in
  txInhibit s' = txInhibit s
  /\ keyRepeatKeyCode s' = keyRepeatKeyCode s
  /\ keyRepeatCountdown s' = keyRepeatCountdown s
  /\ prevReport s' = prevReport s
  /\ keyRepeatDelay s' = keyRepeatDelay (fst (uartISR rx s))
  /\ keyRepeatInterval s' = keyRepeatInterval (fst (uartISR rx s)).
Proof.
  rewrite pollHost_unfold. cbv zeta.
  destruct (host_config_fields _ _ (uartISR_frame rx s))
    as (Ht & _ & Hp & Hk & Hc).
  destruct (negb _ && _); cbn [fst].
  - destruct (motion_led_fields _ _ (sendMouse_frame now (fst (uartISR rx s))))
      as (Ht' & _ & (Hd' & Hi') & Hp' & Hk' & Hc').
    rewrite Ht', Hp', Hk', Hc', Hd', Hi'. repeat split; assumption.
  - repeat split; assumption.
Qed.

Lemma keyRepeat_idle dt s :
  keyRepeatCountdown s = 0 -> keyRepeat now dt s = (s, []).
Proof. intros H. unfold keyRepeat. rewrite H. reflexivity. Qed.

Lemma keyRepeat_keyb dt s :
  keyb_bytes (snd (keyRepeat now dt s))
  = if to_bool (keyRepeatCountdown s)
       && (s32 (keyRepeatCountdown s - u32 dt) <=? 0)
    then scan_bytes (keyRepeatKeyCode s) true else [].
Proof.
  unfold keyRepeat. cbv zeta. destruct (to_bool _); [|reflexivity].
  simpl andb. destruct (_ <=? 0); [|reflexivity].
  rewrite seq_snd, keyb_bytes_app, sendKeycode_keyb. apply app_nil_r.
Qed.

Lemma keyRepeat_mouse dt s : mouse_bytes (snd (keyRepeat now dt s)) = [].
Proof.
  unfold keyRepeat. cbv zeta. destruct (to_bool _); [|reflexivity].
  destruct (_ <=? 0); [|reflexivity].
  rewrite seq_snd, mouse_bytes_app, sendKeycode_mouse. reflexivity.
Qed.

Lemma keyRepeat_frame dt s :
  same_but_repeat_led s (fst (keyRepeat now dt s)).
Proof.
  unfold keyRepeat. cbv zeta.
  destruct (to_bool _); [|apply same_but_repeat_led_refl].
  destruct (_ <=? 0); cbn [fst].
  - rewrite seq_fst.
    pose proof (sendKeycode_frame now
      (keyRepeatKeyCode (set_repeat (keyRepeatKeyCode s)
         (s32 (keyRepeatCountdown s - u32 dt)) s)) true
      (set_repeat (keyRepeatKeyCode s)
         (s32 (keyRepeatCountdown s - u32 dt)) s)) as Hk.
    unfold same_but_led in Hk. unfold modify. cbn [fst].
    unfold same_but_repeat_led. rewrite Hk. destruct s; reflexivity.
  - destruct s; reflexivity.
Qed.

(** The repeat timer after [keyRepeat]. *)
Lemma keyRepeat_timer dt s :
  let c := s32 (keyRepeatCountdown s - u32 dt) in
  let s' := fst (keyRepeat now dt s) in
  keyRepeatKeyCode s' = keyRepeatKeyCode s
  /\ keyRepeatCountdown s'
     = if to_bool (keyRepeatCountdown s)
       then if c <=? 0 then keyRepeatInterval s else c
       else keyRepeatCountdown s.
Proof.
  unfold keyRepeat. cbv zeta.
  destruct (to_bool _); [|split; reflexivity].
  destruct (_ <=? 0); cbn [fst]; [|split; reflexivity].
  rewrite seq_fst.
  pose proof (sendKeycode_frame now
    (keyRepeatKeyCode (set_repeat (keyRepeatKeyCode s)
       (s32 (keyRepeatCountdown s - u32 dt)) s)) true
    (set_repeat (keyRepeatKeyCode s)
       (s32 (keyRepeatCountdown s - u32 dt)) s)) as Hk.
  unfold same_but_led in Hk. unfold modify. cbn [fst].
  rewrite Hk. split; reflexivity.
Qed.

Lemma processKeybAndMouse_keyb dt rx s :
  keyb_bytes (snd (processKeybAndMouse now dt rx s))
  = if to_bool (keyRepeatCountdown s)
       && (s32 (keyRepeatCountdown s - u32 dt) <=? 0)
    then scan_bytes (keyRepeatKeyCode s) true else [].
Proof.
  unfold processKeybAndMouse.
  rewrite seq_snd, keyb_bytes_app, pollHost_keyb, keyRepeat_keyb.
  destruct (pollHost_frame rx s) as (_ & Hk & Hc & _).
  rewrite Hk, Hc. reflexivity.
Qed.

Lemma processKeybAndMouse_mouse dt rx s :
  mouse_bytes (snd (processKeybAndMouse now dt rx s))
  = mouse_bytes (snd (pollHost now rx s)).
Proof.
  unfold processKeybAndMouse.
  rewrite seq_snd, mouse_bytes_app, keyRepeat_mouse. apply app_nil_r.
Qed.

Lemma processKeybAndMouse_timer dt rx s :
  let c := s32 (keyRepeatCountdown s - u32 dt) in
  let s' := fst (processKeybAndMouse now dt rx s) in
  keyRepeatKeyCode s' = keyRepeatKeyCode s
  /\ keyRepeatInterval s' = keyRepeatInterval (fst (uartISR rx s))
  /\ keyRepeatCountdown s'
     = if to_bool (keyRepeatCountdown s)
       then if c <=? 0 then keyRepeatInterval s' else c
       else keyRepeatCountdown s.
Proof.
  cbv zeta. unfold processKeybAndMouse. rewrite seq_fst.
  destruct (pollHost_frame rx s) as (_ & Hk & Hc & _ & _ & Hi).
  destruct (keyRepeat_timer dt (fst (pollHost now rx s))) as [Hk' Hc'].
  destruct (repeat_led_fields _ _
              (keyRepeat_frame dt (fst (pollHost now rx s))))
    as (_ & _ & (_ & Hi') & _).
  rewrite Hk', Hc', Hi', Hk, Hc, Hi. repeat split.
Qed.

End Periodic.

(** ** The signalling lines and the handlers *)

Section Handlers.

Variable now : Z.

Lemma gpioISR_keyb g ev s : keyb_bytes (snd (gpioISR now g ev s)) = [].
Proof.
  unfold gpioISR. destruct (_ && _).
  - apply sendMouse_keyb.
  - reflexivity.
Qed.

Lemma gpioISR_mouse g ev s :
  mouse_bytes (snd (gpioISR now g ev s))
  = if (g =? MSCTRL_GPIO) && to_bool (Z.land ev GPIO_IRQ_EDGE_FALL)
    then if txInhibit s then [] else frame_of s
    else [].
Proof.
  unfold gpioISR. destruct (_ && _).
  - apply sendMouse_mouse.
  - reflexivity.
Qed.

(** The mouse sink sees nothing, or the frame of the accumulator as it was
    when the event arrived, and that only when transmission is allowed. *)
Lemma handle_mouse e s :
  mouse_bytes (snd (handle now e s)) = []
  \/ (txInhibit s = false
      /\ mouse_bytes (snd (handle now e s)) = frame_of s).
Proof.
  destruct e as [r|r|dt rx|g ev|]; simpl handle.
  - left. apply processKeybReport_mouse.
  - left. reflexivity.
  - rewrite processKeybAndMouse_mouse, pollHost_mouse.
    destruct (negb _ && _); [|left; reflexivity].
    destruct (txInhibit s); [left|right; split]; reflexivity.
  - rewrite gpioISR_mouse.
    destruct (_ && _); [|left; reflexivity].
    destruct (txInhibit s); [left|right; split]; reflexivity.
  - left. apply flashActivityLED_mouse.
Qed.

(** The keyboard sink does not depend on the inhibit flags. *)
Lemma handle_keyb_flags e s tx ki :
  keyb_bytes (snd (handle now e (set_txInhibit tx (set_keyInhibit ki s))))
  = keyb_bytes (snd (handle now e s)).
Proof.
  destruct e as [r|r|dt rx|g ev|]; simpl handle.
  - rewrite !processKeybReport_keyb. reflexivity.
  - reflexivity.
  - rewrite !processKeybAndMouse_keyb. reflexivity.
  - rewrite !gpioISR_keyb. reflexivity.
  - rewrite !flashActivityLED_keyb. reflexivity.
Qed.

End Handlers.

(** ** Gating by the inhibit flags *)

(** C1 (as the code has it): while [txInhibit] is true no event writes a
    byte to the mouse sink; the keyboard sink is not gated, an event writes
    to it the bytes it writes when [txInhibit] is false. *)
Theorem txInhibit_silences_mouse_sink_only now e s :
  txInhibit s = true ->
  mouse_bytes (snd (handle now e s)) = []
  /\ keyb_bytes (snd (handle now e s))
     = keyb_bytes (snd (handle now e (set_txInhibit false s))).
Proof.
  intros H. split.
  - destruct (handle_mouse now e s) as [Hm|[Hf _]]; [exact Hm|].
    rewrite H in Hf. discriminate Hf.
  - replace (set_txInhibit false s)
      with (set_txInhibit false (set_keyInhibit (keyInhibit s) s))
      by (destruct s; reflexivity).
    rewrite handle_keyb_flags. reflexivity.
Qed.

Lemma txInhibit_silences_mouse_sink_only_witness :
  txInhibit ready_low = true
  /\ mouse_bytes
       (snd (handle 0 (Gpio MSCTRL_GPIO GPIO_IRQ_EDGE_FALL) ready_low)) = [].
Proof.
  split; [reflexivity|].
  exact (proj1 (txInhibit_silences_mouse_sink_only 0
                  (Gpio MSCTRL_GPIO GPIO_IRQ_EDGE_FALL) ready_low eq_refl)).
Defined.

(** C1 as stated fails on the keyboard sink: with READY low, hence
    [txInhibit] true, the report of a key press still sends the make code,
    and the repeat timer still sends repeats. *)
Lemma txInhibit_keyboard_counterexample :
  txInhibit ready_low = true
  /\ keyb_bytes (snd (handle 0 (KeybReport report_A) ready_low)) = [0x1e]
  /\ keyb_bytes
       (snd (run [(0, KeybReport report_A); (0, Tick 500 [])] ready_low))
     = [0x1e; 0x1e].
Proof. repeat split. Qed.


(** ** The key-inhibit command *)


(** C5: the byte 0x58 matches the key-inhibit pattern and has its low bit
    clear, yet after it is parsed [keyInhibit] is false: line 197 computes
    [ch & (0x01 == 0)]. *)
Theorem key_inhibit_command_0x58 :
  Z.land 0x58 KEYB_KEY_INHIBIT_MASK = KEYB_KEY_INHIBIT
  /\ (Z.land 0x58 1 =? 0) = true
  /\ keyInhibit (fst (run [(0, Tick 0 [0x58])] initState)) = false
  /\ keyInhibit (fst (run [(0, Tick 0 [0x58])]
                        (set_keyInhibit true initState))) = false.
Proof. repeat split. Qed.


(** ** Mouse packets *)

(** C4: whenever an event puts bytes on the mouse sink, they are the three
    bytes of the frame: the status byte with the buttons in bits 0 and 1,
    bits 2 and 3 clear and the overflow and underflow flags of [dx] and [dy]
    in bits 4 to 7, then the low eight bits of [dx] and of [dy].  When [dx]
    fits in a signed byte the second byte is its two's-complement encoding
    and the flags of X are clear. *)
Theorem mouse_packet_format now e s :
  mouse_bytes (snd (handle now e s)) <> [] ->
  exists b0 b1 b2,
    mouse_bytes (snd (handle now e s)) = [b0; b1; b2]
    /\ Z.testbit b0 0 = lmbPressed s
    /\ Z.testbit b0 1 = rmbPressed s
    /\ Z.testbit b0 2 = false
    /\ Z.testbit b0 3 = false
    /\ Z.testbit b0 4 = (127 <? dx s)
    /\ Z.testbit b0 5 = (dx s <? -128)
    /\ Z.testbit b0 6 = (127 <? dy s)
    /\ Z.testbit b0 7 = (dy s <? -128)
    /\ b1 = dx s mod 2 ^ 8
    /\ b2 = dy s mod 2 ^ 8
    /\ (-128 <= dx s <= 127 ->
        s8 b1 = dx s /\ Z.testbit b0 4 = false /\ Z.testbit b0 5 = false).
Proof.
  intros Hne.
  destruct (handle_mouse now e s) as [Hm|[_ Hm]]; [contradiction|].
  rewrite Hm. rewrite frame_of_bytes.
  destruct (frame_of_status s) as (H0 & H1 & H2 & H3 & H4 & H5 & H6 & H7).
  exists (nth 0 (frame_of s) 0), (u8 (dx s)), (u8 (dy s)).
  repeat (split; [first [reflexivity | assumption]|]).
  intros Hr. split; [apply s8_u8_small; exact Hr|].
  rewrite H4, H5. split; [apply Z.ltb_ge|apply Z.ltb_ge]; lia.
Qed.

Lemma mouse_packet_format_witness :
  mouse_bytes
    (snd (handle 0 (Gpio MSCTRL_GPIO GPIO_IRQ_EDGE_FALL) mouse_moved)) <> []
  /\ exists b0 b1 b2,
       mouse_bytes
         (snd (handle 0 (Gpio MSCTRL_GPIO GPIO_IRQ_EDGE_FALL) mouse_moved))
       = [b0; b1; b2]
       /\ b0 = 0x01 /\ b1 = 0x0a /\ b2 = 0xfb.
Proof.
  assert (H : mouse_bytes
      (snd (handle 0 (Gpio MSCTRL_GPIO GPIO_IRQ_EDGE_FALL) mouse_moved))
      <> []) by discriminate.
  split; [exact H|].
  destruct (mouse_packet_format 0 (Gpio MSCTRL_GPIO GPIO_IRQ_EDGE_FALL)
              mouse_moved H) as (b0 & b1 & b2 & E & _).
  exists b0, b1, b2. split; [exact E|].
  injection E as E0 E1 E2. repeat split; symmetry; assumption.
Defined.

(** C6: an emission attempted while [txInhibit] is true sends nothing and
    changes no variable; otherwise three bytes leave, [dx] and [dy] are
    reset to zero and the latched buttons are kept. *)
Theorem sendMouse_retains_or_resets now s :
  if txInhibit s
  then snd (sendMouse now s) = [] /\ fst (sendMouse now s) = s
  else length (mouse_bytes (snd (sendMouse now s))) = 3%nat
       /\ dx (fst (sendMouse now s)) = 0
       /\ dy (fst (sendMouse now s)) = 0
       /\ lmbPressed (fst (sendMouse now s)) = lmbPressed s
       /\ rmbPressed (fst (sendMouse now s)) = rmbPressed s.
Proof.
  destruct (txInhibit s) eqn:H.
  - rewrite sendMouse_inhibited by exact H. split; reflexivity.
  - split.
    + rewrite sendMouse_mouse, H. reflexivity.
    + apply sendMouse_motion, H.
Qed.

(** ** The activity LED on mouse packets *)

(** C9: [sendMouse] calls the LED routine only when the frame it has sent
    is not the all-zero frame. *)
Theorem led_pulse_only_for_nonzero_frame now s :
  led_flashes (snd (sendMouse now s)) <> [] ->
  mouse_bytes (snd (sendMouse now s)) <> [0; 0; 0].
Proof.
  rewrite sendMouse_flashes, sendMouse_mouse.
  destruct (txInhibit s); simpl orb; cbv iota; [congruence|].
  destruct (early_out (frame_of s)) eqn:E; [congruence|].
  intros _ Hz. rewrite Hz in E. vm_compute in E. discriminate E.
Qed.

Lemma led_pulse_only_for_nonzero_frame_witness :
  led_flashes (snd (sendMouse 0 button_down)) <> []
  /\ mouse_bytes (snd (sendMouse 0 button_down)) <> [0; 0; 0].
Proof.
  assert (H : led_flashes (snd (sendMouse 0 button_down)) <> [])
    by (vm_compute; discriminate).
  split; [exact H|].
  exact (led_pulse_only_for_nonzero_frame 0 button_down H).
Defined.

(** The all-zero frame is sent without a call of the LED routine; so are
    other frames, the test of line 270 being [((d0 == d1) == d2) == 0]. *)
Example zero_frame_no_pulse :
  snd (sendMouse 0 initState) = [MouseTx 0; MouseTx 0; MouseTx 0].
Proof. reflexivity. Qed.

Example nonzero_frame_no_pulse :
  snd (sendMouse 0
         (fst (processMouseReport (mkMouseReport 0x01 5 3 0 0) initState)))
  = [MouseTx 1; MouseTx 5; MouseTx 3].
Proof. reflexivity. Qed.

(** ** Accumulation of the mouse deltas *)

Lemma run_mouse_events_dx rs s :
  dx (fst (run (mouse_events rs) s))
  = fold_left (fun a tr => s16 (a + x (snd tr))) rs (dx s)
  /\ dy (fst (run (mouse_events rs) s))
     = fold_left (fun a tr => s16 (a + y (snd tr))) rs (dy s).
Proof.
  revert s. induction rs as [|[t r] rs IH]; intros s.
  - split; reflexivity.
  - cbn [mouse_events map run fst snd handle fold_left].
    rewrite seq_fst. apply (IH (fst (processMouseReport r s))).
Qed.

Lemma fold_s16_sum {A : Type} (f : A -> Z) l a :
  in_int16 a ->
  fold_left (fun a tr => s16 (a + f tr)) l a
  = s16 (a + fold_right (fun tr a => f tr + a) 0 l).
Proof.
  revert a. induction l as [|r l IH]; intros a Ha; cbn [fold_left fold_right].
  - rewrite Z.add_0_r. symmetry. apply s16_small, Ha.
  - rewrite IH by apply s16_range. rewrite s16_idem. f_equal. lia.
Qed.

(** C7 (as the code has it): a mouse report overwrites the latched buttons
    with bits 0 and 1 of its button byte and adds its deltas to [dx] and
    [dy] in 16-bit two's-complement arithmetic, which wraps around and does
    not saturate.  After a list of reports [dx] and [dy] are the sums of the
    deltas delivered, reduced into the signed 16-bit range; they are the
    exact sums when these fit. *)
Theorem mouse_reports_accumulate_wrapping rs s :
  in_int16 (dx s) -> in_int16 (dy s) ->
  (forall r,
      let s1 := fst (processMouseReport r s) in
      lmbPressed s1 = Z.testbit (buttons r) 0
      /\ rmbPressed s1 = Z.testbit (buttons r) 1
      /\ dx s1 = s16 (dx s + x r)
      /\ dy s1 = s16 (dy s + y r))
  /\ (let s' := fst (run (mouse_events rs) s) in
      dx s' = s16 (dx s + sum_x rs)
      /\ dy s' = s16 (dy s + sum_y rs)
      /\ (in_int16 (dx s + sum_x rs) -> dx s' = dx s + sum_x rs)
      /\ (in_int16 (dy s + sum_y rs) -> dy s' = dy s + sum_y rs)).
Proof.
  intros Hx Hy. split.
  - intros r. cbv zeta. unfold processMouseReport, modify. cbn [fst].
    unfold MOUSE_BUTTON_LEFT, MOUSE_BUTTON_RIGHT.
    rewrite <- to_bool_land_1, <- to_bool_land_2. repeat split.
  - cbv zeta. destruct (run_mouse_events_dx rs s) as [Ex Ey].
    rewrite Ex, Ey. unfold sum_x, sum_y.
    rewrite (fold_s16_sum (fun tr => x (snd tr))) by exact Hx.
    rewrite (fold_s16_sum (fun tr => y (snd tr))) by exact Hy.
    repeat split; intros H; apply s16_small, H.
Qed.

Lemma mouse_reports_accumulate_wrapping_witness :
  in_int16 (dx initState) /\ in_int16 (dy initState)
  /\ dx (fst (run (mouse_events [(0, mkMouseReport 0x01 10 (-5) 0 0);
                                 (0, mkMouseReport 0x01 3 (-2) 0 0)])
                  initState))
     = s16 (dx initState
            + sum_x [(0, mkMouseReport 0x01 10 (-5) 0 0);
                     (0, mkMouseReport 0x01 3 (-2) 0 0)]).
Proof.
  assert (Hx : in_int16 (dx initState)) by (unfold in_int16; simpl; lia).
  assert (Hy : in_int16 (dy initState)) by (unfold in_int16; simpl; lia).
  split; [exact Hx|]. split; [exact Hy|].
  exact (proj1 (proj2 (mouse_reports_accumulate_wrapping
                         [(0, mkMouseReport 0x01 10 (-5) 0 0);
                          (0, mkMouseReport 0x01 3 (-2) 0 0)]
                         initState Hx Hy))).
Defined.

(** C7 as stated fails: 259 reports of +127 sum to 32893; a saturating
    accumulator would hold 32767, [dx] holds 32893 - 65536. *)
Lemma mouse_saturation_counterexample :
  dx (fst (run (mouse_events (repeat (0, mkMouseReport 0 127 0 0 0) 259))
               initState)) = -32643
  /\ spec_saturating_sum_x (repeat (0, mkMouseReport 0 127 0 0 0) 259)
     = 32767.
Proof. split; vm_compute; reflexivity. Qed.

(** ** The repeat timer *)

Lemma repeat_invariant_transfer s s' :
  keyRepeatKeyCode s' = keyRepeatKeyCode s ->
  keyRepeatCountdown s' = keyRepeatCountdown s ->
  keyRepeatDelay s' = keyRepeatDelay s ->
  keyRepeatInterval s' = keyRepeatInterval s ->
  repeat_invariant s -> repeat_invariant s'.
Proof.
  unfold repeat_invariant, repeat_shape, disarmed, armed,
    repeat_times_positive.
  intros -> -> -> ->. exact (fun H => H).
Qed.

Lemma repeat_invariant_led s s' :
  same_but_led s s' -> repeat_invariant s -> repeat_invariant s'.
Proof.
  intros H. destruct (led_fields _ _ H) as (Hr & Hk & Hc).
  destruct (repeat_led_fields _ _ Hr) as (_ & _ & (Hd & Hi) & _).
  apply repeat_invariant_transfer; assumption.
Qed.

Lemma repeat_invariant_motion_led s s' :
  same_but_motion_led s s' -> repeat_invariant s -> repeat_invariant s'.
Proof.
  intros H. destruct (motion_led_fields _ _ H)
    as (_ & _ & (Hd & Hi) & _ & Hk & Hc).
  apply repeat_invariant_transfer; assumption.
Qed.

Lemma not_sentinel_nonzero k :
  (k =? HID_KEY_NONE) || (k <=? 0x03) = false -> 3 < k.
Proof.
  intros H. apply orb_false_iff in H. destruct H as [_ H].
  apply Z.leb_gt in H. exact H.
Qed.

Section RepeatTimer.

Variable now : Z.

Lemma compareSlot_invariant b m k s :
  repeat_invariant s -> repeat_invariant (fst (compareSlot now b m k s)).
Proof.
  intros Hs. unfold compareSlot.
  destruct (_ || _) eqn:Hk; [exact Hs|].
  apply not_sentinel_nonzero in Hk.
  destruct (negb _); [|exact Hs].
  rewrite seq_fst.
  pose proof (repeat_invariant_led _ _ (sendKeycode_frame now k m s) Hs) as H1.
  generalize dependent (fst (sendKeycode now k m s)). intros s1 H1.
  destruct m; [|destruct (_ =? _)]; unfold modify, skip; cbn [fst].
  - destruct H1 as [_ [Hd Hi]]. split; [right|]; split; cbn; try assumption.
    lia.
  - destruct H1 as [_ Ht]. split; [left; split; reflexivity|exact Ht].
  - exact H1.
Qed.

Lemma compareKeybReports_invariant a b m s :
  repeat_invariant s ->
  repeat_invariant (fst (compareKeybReports now a b m s)).
Proof.
  unfold compareKeybReports. apply for_each_invariant.
  intros k s1. apply compareSlot_invariant.
Qed.

Lemma modifier_pass_frame r md s :
  same_but_led s (fst ((if to_bool md
                        then for_each (List.seq 0 8) (modifierBit now r md)
                        else skip) s)).
Proof.
  destruct (to_bool md); [|apply same_but_led_refl].
  apply for_each_frame.
  - apply same_but_led_refl.
  - apply same_but_led_trans.
  - intros i s1. apply modifierBit_frame.
Qed.

(** The state after a keyboard report, pass by pass. *)
Lemma processKeybReport_fst r s :
  fst (processKeybReport now r s) =
  let prev := prevReport s in
  let md := u8 (Z.lxor (modifier prev) (modifier r)) in
  let s1 := fst ((if to_bool md
                  then for_each (List.seq 0 8) (modifierBit now r md)
                  else skip) s) in
  let s2 := fst (compareKeybReports now prev r false s1) in
  let s3 := fst (compareKeybReports now r prev true s2) in
  set_prevReport r s3.
Proof. unfold processKeybReport. cbv zeta. rewrite !seq_fst. reflexivity. Qed.

Lemma processKeybReport_invariant r s :
  repeat_invariant s -> repeat_invariant (fst (processKeybReport now r s)).
Proof.
  intros Hs. rewrite processKeybReport_fst. cbv zeta.
  eapply repeat_invariant_transfer; try reflexivity.
  apply compareKeybReports_invariant, compareKeybReports_invariant.
  eapply repeat_invariant_led; [apply modifier_pass_frame|exact Hs].
Qed.

Lemma uartISR_invariant rx s :
  repeat_invariant s -> repeat_invariant (fst (uartISR rx s)).
Proof.
  unfold uartISR, modify. cbn [fst]. revert s.
  induction rx as [|c rx IH]; intros s Hs; cbn [fold_left]; [exact Hs|].
  apply IH. destruct Hs as [Hshape Ht].
  split; [|apply uartByte_times_positive, Ht].
  destruct (host_config_fields _ _ (uartByte_frame c s))
    as (_ & _ & _ & Hk & Hc).
  unfold repeat_shape, disarmed, armed. rewrite Hk, Hc. exact Hshape.
Qed.

Lemma pollHost_invariant rx s :
  repeat_invariant s -> repeat_invariant (fst (pollHost now rx s)).
Proof.
  intros Hs. rewrite pollHost_unfold. cbv zeta.
  apply uartISR_invariant with (rx := rx) in Hs.
  destruct (negb _ && _); [|exact Hs].
  eapply repeat_invariant_motion_led; [apply sendMouse_frame|exact Hs].
Qed.

Lemma keyRepeat_invariant dt s :
  repeat_invariant s -> repeat_invariant (fst (keyRepeat now dt s)).
Proof.
  intros [Hshape [Hd Hi]].
  destruct (keyRepeat_timer now dt s) as [Hk Hc]. cbv zeta in Hk, Hc.
  destruct (repeat_led_fields _ _ (keyRepeat_frame now dt s))
    as (_ & _ & (Hd' & Hi') & _).
  split; [|split; [rewrite Hd'|rewrite Hi']; assumption].
  unfold repeat_shape, disarmed, armed. rewrite Hk, Hc.
  destruct Hshape as [[Hk0 Hc0]|[Hk1 Hc1]].
  - left. rewrite Hc0. split; [exact Hk0|reflexivity].
  - right. split; [exact Hk1|].
    unfold to_bool. destruct (Z.eqb_spec (keyRepeatCountdown s) 0) as [E|_];
      [lia|]. cbn [negb].
    destruct (Z.leb_spec (s32 (keyRepeatCountdown s - u32 dt)) 0); lia.
Qed.

Lemma handle_invariant e s :
  repeat_invariant s -> repeat_invariant (fst (handle now e s)).
Proof.
  intros Hs. destruct e as [r|r|dt rx|g ev|]; cbn [handle].
  - apply processKeybReport_invariant, Hs.
  - exact Hs.
  - unfold processKeybAndMouse. rewrite seq_fst.
    apply keyRepeat_invariant, pollHost_invariant, Hs.
  - unfold gpioISR. destruct (_ && _).
    + eapply repeat_invariant_motion_led; [apply sendMouse_frame|exact Hs].
    + exact Hs.
  - eapply repeat_invariant_led; [apply flashActivityLED_frame|exact Hs].
Qed.

End RepeatTimer.

Lemma initState_invariant : repeat_invariant initState.
Proof.
  split; [left; split; reflexivity|split; reflexivity].
Qed.

Lemma reachable_invariant s : reachable s -> repeat_invariant s.
Proof.
  induction 1 as [|s now e _ IH].
  - apply initState_invariant.
  - apply handle_invariant, IH.
Qed.

(** C10: in every state the firmware can reach the repeat timer is either
    disarmed, key code and countdown both zero, or armed, key code not zero
    and countdown positive, never both; the countdown is not negative; and
    the state after any further event has one of the two shapes again. *)
Theorem repeat_state_shape s :
  reachable s ->
  repeat_shape s
  /\ ~ (disarmed s /\ armed s)
  /\ 0 <= keyRepeatCountdown s
  /\ forall now e, repeat_shape (fst (handle now e s)).
Proof.
  intros Hr. pose proof (reachable_invariant s Hr) as [Hshape Ht].
  split; [exact Hshape|]. split; [|split].
  - intros [[Hk _] [Hk' _]]. contradiction.
  - destruct Hshape as [[_ Hc]|[_ Hc]]; lia.
  - intros now e. apply (handle_invariant now e s). split; assumption.
Qed.

Lemma repeat_state_shape_witness :
  reachable key_A_down
  /\ keyRepeatKeyCode key_A_down = 0x04
  /\ keyRepeatCountdown key_A_down = 500
  /\ repeat_shape key_A_down.
Proof.
  assert (H : reachable key_A_down) by (apply reach_step, reach_init).
  split; [exact H|]. split; [reflexivity|]. split; [reflexivity|].
  exact (proj1 (repeat_state_shape key_A_down H)).
Defined.

(** [keyInhibit] is false in every reachable state: it starts false and the
    only assignment to it, line 197, stores false. *)
Lemma handle_keyInhibit now e s :
  keyInhibit s = false -> keyInhibit (fst (handle now e s)) = false.
Proof.
  intros Hs. destruct e as [r|r|dt rx|g ev|]; cbn [handle].
  - destruct (processKeybReport_frame now r s) as (s1 & Hf & ->).
    destruct (repeat_led_fields _ _ Hf) as (_ & Hk & _).
    cbn. rewrite Hk. exact Hs.
  - exact Hs.
  - unfold processKeybAndMouse. rewrite seq_fst.
    destruct (repeat_led_fields _ _
                (keyRepeat_frame now dt (fst (pollHost now rx s))))
      as (_ & -> & _).
    rewrite pollHost_unfold. cbv zeta.
    assert (H1 : keyInhibit (fst (uartISR rx s)) = false).
    { unfold uartISR, modify. cbn [fst]. revert s Hs.
      induction rx as [|c rx IH]; intros s Hs; cbn [fold_left];
        [exact Hs|]. apply IH, uartByte_keyInhibit, Hs. }
    destruct (negb _ && _); [|exact H1].
    destruct (motion_led_fields _ _ (sendMouse_frame now (fst (uartISR rx s))))
      as (_ & -> & _). exact H1.
  - unfold gpioISR. destruct (_ && _).
    + destruct (motion_led_fields _ _ (sendMouse_frame now s))
        as (_ & -> & _). exact Hs.
    + exact Hs.
  - destruct (led_fields _ _ (flashActivityLED_frame now 500 s)) as (Hf & _).
    destruct (repeat_led_fields _ _ Hf) as (_ & -> & _). exact Hs.
Qed.

(** X14: [keyInhibit] is false in every state the firmware can reach: no
    run of reports, ticks, host bytes and interrupts sets it. *)
Lemma keyInhibit_never_set s : reachable s -> keyInhibit s = false.
Proof.
  induction 1 as [|s now e _ IH]; [reflexivity|].
  apply handle_keyInhibit, IH.
Qed.

(** ** Repeat: ticks and breaks *)

Section RepeatBreak.

Variable now : Z.

(** The timer after one slot of the break pass. *)
Lemma compareSlot_break_timer b k s :
  let s' := fst (compareSlot now b false k s) in
  if negb ((k =? HID_KEY_NONE) || (k <=? 0x03))
     && negb (isPresentInReport b k)
     && (keyRepeatKeyCode s =? k)
  then disarmed s'
  else keyRepeatKeyCode s' = keyRepeatKeyCode s
       /\ keyRepeatCountdown s' = keyRepeatCountdown s.
Proof.
  cbv zeta. unfold compareSlot.
  destruct (_ || _); [split; reflexivity|].
  destruct (negb (isPresentInReport b k)); [|split; reflexivity].
  cbn [negb andb]. rewrite seq_fst.
  destruct (led_fields _ _ (sendKeycode_frame now k false s))
    as (_ & Hk & Hc).
  rewrite <- Hk.
  generalize dependent (fst (sendKeycode now k false s)). intros s1 Hk Hc.
  destruct (keyRepeatKeyCode s1 =? k); unfold modify, skip; cbn [fst].
  - split; reflexivity.
  - split; [reflexivity|exact Hc].
Qed.

Lemma compareSlot_break_disarmed b k s :
  disarmed s -> disarmed (fst (compareSlot now b false k s)).
Proof.
  intros Hs. pose proof (compareSlot_break_timer b k s) as H. cbv zeta in H.
  destruct (_ && _); [exact H|].
  destruct H as [Hk Hc]. destruct Hs as [Hk0 Hc0].
  split; congruence.
Qed.

Lemma break_pass_disarmed b l s :
  disarmed s -> disarmed (fst (for_each l (compareSlot now b false) s)).
Proof.
  apply for_each_invariant. intros k s1. apply compareSlot_break_disarmed.
Qed.

(** The break pass disarms the timer when it meets the armed key. *)
Lemma break_pass_clears b l s :
  In (keyRepeatKeyCode s)
     (filter (fun k => negb ((k =? HID_KEY_NONE) || (k <=? 0x03))) l) ->
  isPresentInReport b (keyRepeatKeyCode s) = false ->
  disarmed (fst (for_each l (compareSlot now b false) s)).
Proof.
  revert s. induction l as [|a l IH]; intros s Hin Hb; [destruct Hin|].
  cbn [for_each]. rewrite seq_fst.
  pose proof (compareSlot_break_timer b a s) as H. cbv zeta in H.
  cbn [filter] in Hin.
  destruct (negb ((a =? HID_KEY_NONE) || (a <=? 0x03))) eqn:Ha.
  - destruct (Z.eqb_spec (keyRepeatKeyCode s) a) as [E|E].
    + subst a. rewrite Hb in H. cbn [negb andb] in H.
      apply break_pass_disarmed, H.
    + rewrite andb_false_r in H. destruct H as [Hk Hc].
      apply IH; rewrite Hk; [|exact Hb].
      destruct Hin as [Hin|Hin]; [congruence|exact Hin].
  - cbn [andb] in H. destruct H as [Hk Hc].
    apply IH; rewrite Hk; assumption.
Qed.

(** The timer after one slot of the make pass. *)
Lemma compareSlot_make_timer b k s :
  let s' := fst (compareSlot now b true k s) in
  if negb ((k =? HID_KEY_NONE) || (k <=? 0x03))
     && negb (isPresentInReport b k)
  then keyRepeatKeyCode s' = k
  else keyRepeatKeyCode s' = keyRepeatKeyCode s
       /\ keyRepeatCountdown s' = keyRepeatCountdown s.
Proof.
  cbv zeta. unfold compareSlot.
  destruct (_ || _); [split; reflexivity|].
  destruct (negb (isPresentInReport b k)); [|split; reflexivity].
  cbn [negb andb]. rewrite seq_fst. reflexivity.
Qed.

(** The timer after the make pass: untouched when no key is new, armed for
    one of the new keys otherwise. *)
Lemma make_pass_timer b l s :
  let d := filter (fun k => negb (isPresentInReport b k))
             (filter (fun k => negb ((k =? HID_KEY_NONE) || (k <=? 0x03))) l) in
  let s' := fst (for_each l (compareSlot now b true) s) in
  (d = [] /\ keyRepeatKeyCode s' = keyRepeatKeyCode s
   /\ keyRepeatCountdown s' = keyRepeatCountdown s)
  \/ In (keyRepeatKeyCode s') d.
Proof.
  cbv zeta. revert s. induction l as [|a l IH]; intros s.
  - left. repeat split.
  - cbn [for_each filter]. rewrite seq_fst.
    pose proof (compareSlot_make_timer b a s) as H. cbv zeta in H.
    specialize (IH (fst (compareSlot now b true a s))).
    destruct (negb ((a =? HID_KEY_NONE) || (a <=? 0x03))); cbn [andb] in H.
    + cbn [filter]. destruct (negb (isPresentInReport b a)).
      * right. destruct IH as [(_ & Hk & _)|Hin].
        -- left. rewrite Hk, H. reflexivity.
        -- right. exact Hin.
      * destruct H as [Hk Hc]. rewrite <- Hk, <- Hc. exact IH.
    + destruct H as [Hk Hc]. rewrite <- Hk, <- Hc. exact IH.
Qed.

(** Ticks leave a disarmed timer disarmed and send nothing on the keyboard
    link. *)
Lemma tick_disarmed dt rx s :
  disarmed s ->
  keyb_bytes (snd (processKeybAndMouse now dt rx s)) = []
  /\ disarmed (fst (processKeybAndMouse now dt rx s)).
Proof.
  intros [Hk Hc]. split.
  - rewrite processKeybAndMouse_keyb, Hc. reflexivity.
  - destruct (processKeybAndMouse_timer now dt rx s) as (Hk' & _ & Hc').
    cbv zeta in Hk', Hc'. rewrite Hc in Hc'. cbn in Hc'.
    split; congruence.
Qed.

End RepeatBreak.

Lemma ticks_disarmed es s :
  Forall is_tick es -> disarmed s ->
  keyb_bytes (snd (run es s)) = [] /\ disarmed (fst (run es s)).
Proof.
  intros Hes. revert s. induction Hes as [|[now e] es He _ IH]; intros s Hs.
  - split; [reflexivity|exact Hs].
  - cbn [run]. rewrite seq_fst, seq_snd, keyb_bytes_app.
    destruct e as [r|r|dt rx|g ev|]; try destruct He.
    cbn [handle]. destruct (tick_disarmed now dt rx s Hs) as [Hb Hd].
    destruct (IH _ Hd) as [Hb' Hd']. rewrite Hb, Hb'.
    split; [reflexivity|exact Hd'].
Qed.

(** ** The scancode table *)

(** Every entry of [keycodeScans] is a seven-bit code that is not a modifier
    code; sent as a make it is itself, sent as a break it has bit 7 set and
    the entry in its low seven bits. *)
Lemma keycodeScans_codes :
  forallb (fun t =>
    let m := u8 (Z.lor t 0x00) in
    let b := u8 (Z.lor t 0x80) in
    (m =? t) && negb (is_modifier_scan m) && negb (Z.testbit m 7)
    && negb (is_modifier_scan b) && Z.testbit b 7 && (Z.land b 0x7f =? t))
    keycodeScans = true.
Proof. vm_compute. reflexivity. Qed.

Lemma scan_bytes_cases k :
  (scan_bytes k true = [] /\ scan_bytes k false = [])
  \/ (HID_KEY_A <= k < HID_KEY_A + sizeof_keycodeScans
      /\ exists t, In t keycodeScans
         /\ t = nth (Z.to_nat (k - HID_KEY_A)) keycodeScans 0
         /\ scan_bytes k true = [u8 (Z.lor t 0x00)]
         /\ scan_bytes k false = [u8 (Z.lor t 0x80)]).
Proof.
  unfold scan_bytes.
  destruct ((k <? HID_KEY_A) || (sizeof_keycodeScans <=? k - HID_KEY_A)) eqn:E.
  - left. split; reflexivity.
  - right. apply orb_false_iff in E. destruct E as [E1 E2].
    apply Z.ltb_ge in E1. apply Z.leb_gt in E2. split; [lia|].
    eexists. split; [|repeat split].
    apply nth_In. unfold sizeof_keycodeScans in E2. lia.
Qed.

Lemma scan_bytes_make k :
  HID_KEY_A <= k < HID_KEY_A + sizeof_keycodeScans ->
  scan_bytes k true = [nth (Z.to_nat (k - HID_KEY_A)) keycodeScans 0].
Proof.
  intros Hk.
  destruct (scan_bytes_cases k) as [[E _]|(_ & t & Hin & Ht & E & _)].
  - unfold scan_bytes in E.
    destruct (Z.ltb_spec k HID_KEY_A); [lia|].
    destruct (Z.leb_spec sizeof_keycodeScans (k - HID_KEY_A)); [lia|].
    discriminate E.
  - rewrite E, <- Ht. f_equal.
    pose proof keycodeScans_codes as T. rewrite forallb_forall in T.
    specialize (T t Hin). cbv zeta in T.
    repeat (apply andb_prop in T; destruct T as [T ?]).
    apply Z.eqb_eq. exact T.
Qed.

(** The byte [sendKeycode] sends is the byte of the table. *)
Lemma keycodeScans_bytes :
  forallb (fun t => (u8 (Z.lor t 0x00) =? t + 0x00)
                    && (u8 (Z.lor t 0x80) =? t + 0x80)) keycodeScans = true.
Proof. vm_compute. reflexivity. Qed.

Lemma scan_bytes_table k m : scan_bytes k m = key_code_byte k m.
Proof.
  unfold scan_bytes, key_code_byte. change sizeof_keycodeScans with 97.
  destruct (Z.ltb_spec k HID_KEY_A) as [H1|H1];
    destruct (Z.leb_spec HID_KEY_A k) as [H2|H2]; try lia;
    cbn [orb andb]; [reflexivity|].
  destruct (Z.leb_spec 97 (k - HID_KEY_A)) as [H3|H3];
    destruct (Z.ltb_spec k (HID_KEY_A + 97)) as [H4|H4]; try lia;
    [reflexivity|].
  assert (Hin : In (nth (Z.to_nat (k - HID_KEY_A)) keycodeScans 0)
                   keycodeScans).
  { apply nth_In. change (length keycodeScans) with 97%nat. lia. }
  pose proof keycodeScans_bytes as T. rewrite forallb_forall in T.
  specialize (T _ Hin). cbv beta in T.
  apply andb_prop in T. destruct T as [T0 T1].
  apply Z.eqb_eq in T0, T1. destruct m; [rewrite T0|rewrite T1]; reflexivity.
Qed.

(** ** Repeat timing *)

(** C8 (as the code has it): on a tick with [deltaTime = dt], at most 2^31,
    a positive countdown is decremented by [dt]; when the result is not
    positive the make code of the armed key is sent if the key has an
    entry in [keycodeScans] (keycodes 0x04 to 0x64) and nothing is sent for
    any other armed key, and the countdown becomes [keyRepeatInterval];
    otherwise nothing is sent and the countdown keeps the result.  A
    disarmed timer sends nothing and stays disarmed.  A report in which
    the armed key is released leaves the timer armed for another key or,
    when no key is new, disarmed, and then no tick sends anything. *)
Theorem repeat_timer_tick_and_break :
  (forall now dt rx s,
      0 < keyRepeatCountdown s < 2 ^ 31 ->
      0 <= dt <= 2 ^ 31 ->
      let s' := fst (processKeybAndMouse now dt rx s) in
      let out := keyb_bytes (snd (processKeybAndMouse now dt rx s)) in
      keyRepeatKeyCode s' = keyRepeatKeyCode s
      /\ (if keyRepeatCountdown s - dt <=? 0
          then out = key_code_byte (keyRepeatKeyCode s) true
               /\ keyRepeatCountdown s' = keyRepeatInterval s'
          else out = []
               /\ keyRepeatCountdown s' = keyRepeatCountdown s - dt))
  /\ (forall now dt rx s,
         disarmed s ->
         keyb_bytes (snd (processKeybAndMouse now dt rx s)) = []
         /\ disarmed (fst (processKeybAndMouse now dt rx s)))
  /\ (forall now r s,
         In (keyRepeatKeyCode s) (pressed (prevReport s)) ->
         isPresentInReport r (keyRepeatKeyCode s) = false ->
         let s' := fst (processKeybReport now r s) in
         keyRepeatKeyCode s' <> keyRepeatKeyCode s
         /\ (diff_keys r (prevReport s) = [] ->
             disarmed s'
             /\ forall ticks, Forall is_tick ticks ->
                  keyb_bytes (snd (run ticks s')) = [])).
Proof.
  split; [|split].
  - intros now dt rx s Hpos Hdt. cbv zeta.
    destruct (processKeybAndMouse_timer now dt rx s) as (Hk & _ & Hc).
    cbv zeta in Hk, Hc. rewrite processKeybAndMouse_keyb.
    assert (Hb : to_bool (keyRepeatCountdown s) = true).
    { unfold to_bool. destruct (Z.eqb_spec (keyRepeatCountdown s) 0); [lia|].
      reflexivity. }
    assert (E : s32 (keyRepeatCountdown s - u32 dt)
                = keyRepeatCountdown s - dt).
    { rewrite u32_small by lia. apply s32_small. lia. }
    rewrite Hb, E in Hc |- *. cbn [andb].
    split; [exact Hk|].
    destruct (_ <=? 0).
    + split; [apply scan_bytes_table|exact Hc].
    + split; [reflexivity|exact Hc].
  - intros now dt rx s. apply tick_disarmed.
  - intros now r s Hin Hrel. cbv zeta.
    rewrite processKeybReport_fst. cbv zeta.
    set (md := u8 (Z.lxor (modifier (prevReport s)) (modifier r))).
    pose proof (modifier_pass_frame now r md s) as Hf.
    destruct (led_fields _ _ Hf) as (_ & Hk1 & _).
    set (s1 := fst ((if to_bool md
                     then for_each (List.seq 0 8) (modifierBit now r md)
                     else skip) s)) in *.
    assert (Hdis : disarmed
              (fst (compareKeybReports now (prevReport s) r false s1))).
    { unfold compareKeybReports.
      apply break_pass_clears; rewrite Hk1; assumption. }
    set (s2 := fst (compareKeybReports now (prevReport s) r false s1)) in *.
    pose proof (make_pass_timer now (prevReport s) (slots (keycode r)) s2)
      as Hm.
    cbv zeta in Hm. fold (pressed r) in Hm.
    fold (diff_keys r (prevReport s)) in Hm.
    fold (compareKeybReports now r (prevReport s) true) in Hm.
    set (s3 := fst (compareKeybReports now r (prevReport s) true s2)) in *.
    change (keyRepeatKeyCode (set_prevReport r s3)) with (keyRepeatKeyCode s3).
    assert (Hnz : 3 < keyRepeatKeyCode s).
    { unfold pressed in Hin. apply filter_In in Hin. destruct Hin as [_ Hn].
      apply negb_true_iff in Hn. apply not_sentinel_nonzero, Hn. }
    split.
    + destruct Hm as [(_ & Hk3 & _)|Hin3].
      * rewrite Hk3. destruct Hdis as [Hz _]. rewrite Hz. lia.
      * intros E. rewrite E in Hin3. unfold diff_keys, pressed in Hin3.
        apply filter_In in Hin3. destruct Hin3 as [Hin3 _].
        apply filter_In in Hin3. destruct Hin3 as [Hin3 _].
        unfold isPresentInReport in Hrel.
        assert (Ht : existsb (fun k => k =? keyRepeatKeyCode s)
                       (slots (keycode r)) = true).
        { apply existsb_exists. exists (keyRepeatKeyCode s).
          split; [exact Hin3|apply Z.eqb_refl]. }
        congruence.
    + intros Hd. destruct Hm as [(_ & Hk3 & Hc3)|Hin3].
      * assert (Hd3 : disarmed (set_prevReport r s3)).
        { destruct Hdis as [Hz Hcz]. split; cbn; congruence. }
        split; [exact Hd3|]. intros ticks Ht.
        apply (ticks_disarmed ticks _ Ht Hd3).
      * rewrite Hd in Hin3. destruct Hin3.
Qed.

Lemma repeat_timer_tick_and_break_witness :
  0 < keyRepeatCountdown key_A_down < 2 ^ 31
  /\ 0 <= 500 <= 2 ^ 31
  /\ keyb_bytes (snd (processKeybAndMouse 0 500 [] key_A_down)) = [0x1e]
  /\ keyRepeatCountdown (fst (processKeybAndMouse 0 500 [] key_A_down)) = 110
  /\ In (keyRepeatKeyCode key_A_down) (pressed (prevReport key_A_down))
  /\ isPresentInReport zeroReport (keyRepeatKeyCode key_A_down) = false
  /\ keyRepeatKeyCode (fst (processKeybReport 0 zeroReport key_A_down))
     <> keyRepeatKeyCode key_A_down.
Proof.
  destruct repeat_timer_tick_and_break as (T1 & _ & T3).
  assert (H : 0 < keyRepeatCountdown key_A_down < 2 ^ 31)
    by (split; reflexivity).
  assert (Hdt : 0 <= 500 <= 2 ^ 31) by (split; discriminate).
  assert (Hin : In (keyRepeatKeyCode key_A_down)
                   (pressed (prevReport key_A_down))) by (left; reflexivity).
  assert (Hrel : isPresentInReport zeroReport (keyRepeatKeyCode key_A_down)
                 = false) by reflexivity.
  split; [exact H|]. split; [exact Hdt|].
  pose proof (T1 0 500 [] key_A_down H Hdt) as P. cbv zeta in P.
  destruct P as (_ & P).
  assert (E : (keyRepeatCountdown key_A_down - 500 <=? 0) = true)
    by reflexivity.
  rewrite E in P. destruct P as [Pb Pc].
  split; [rewrite Pb; reflexivity|]. split; [rewrite Pc; reflexivity|].
  split; [exact Hin|]. split; [exact Hrel|].
  exact (proj1 (T3 0 zeroReport key_A_down Hin Hrel)).
Defined.

(** C8 as stated fails in two places.  The key 0x65 has no entry in
    [keycodeScans]; reported down it arms the timer, and when the
    countdown runs out no make code is sent.  And the decrement is a
    32-bit one: with key A armed at 500 ms, a tick of 2^31 + 501 ms, for
    which 500 - dt is negative, sends nothing and leaves the countdown at
    2^31 - 1. *)
Lemma repeat_make_counterexample :
  keyRepeatKeyCode key_0x65_down = 0x65
  /\ keyRepeatCountdown key_0x65_down = 500
  /\ keyb_bytes (snd (handle 0 (Tick 500 []) key_0x65_down)) = []
  /\ keyRepeatCountdown (fst (handle 0 (Tick 500 []) key_0x65_down)) = 110
  /\ keyRepeatCountdown key_A_down - (2 ^ 31 + 501) <= 0
  /\ keyb_bytes (snd (handle 0 (Tick (2 ^ 31 + 501) []) key_A_down)) = []
  /\ keyRepeatCountdown (fst (handle 0 (Tick (2 ^ 31 + 501) []) key_A_down))
     = 2 ^ 31 - 1.
Proof. repeat split. discriminate. Qed.

(** ** Makes and breaks on the keyboard link *)

Lemma key_makes_app bs cs : key_makes (bs ++ cs) = key_makes bs ++ key_makes cs.
Proof. apply filter_app. Qed.

Lemma key_breaks_app bs cs :
  key_breaks (bs ++ cs) = key_breaks bs ++ key_breaks cs.
Proof. unfold key_breaks. rewrite filter_app. apply map_app. Qed.

Lemma key_makes_flat_map {A : Type} (f : A -> list Z) l :
  key_makes (flat_map f l) = flat_map (fun a => key_makes (f a)) l.
Proof.
  induction l as [|a l IH]; cbn [flat_map]; [reflexivity|].
  rewrite key_makes_app, IH. reflexivity.
Qed.

Lemma key_breaks_flat_map {A : Type} (f : A -> list Z) l :
  key_breaks (flat_map f l) = flat_map (fun a => key_breaks (f a)) l.
Proof.
  induction l as [|a l IH]; cbn [flat_map]; [reflexivity|].
  rewrite key_breaks_app, IH. reflexivity.
Qed.

Lemma flat_map_nil {A B : Type} (l : list A) :
  flat_map (fun _ => @nil B) l = [].
Proof. induction l as [|a l IH]; [reflexivity|exact IH]. Qed.

(** The bytes of a key: a make is read as a make, a break as the break of
    the same code. *)
Lemma scan_bytes_read k :
  key_makes (scan_bytes k true) = scan_bytes k true
  /\ key_breaks (scan_bytes k true) = []
  /\ key_makes (scan_bytes k false) = []
  /\ key_breaks (scan_bytes k false) = scan_bytes k true.
Proof.
  destruct (scan_bytes_cases k)
    as [[E1 E2]|(_ & t & Hin & _ & E1 & E2)]; rewrite E1, E2.
  - repeat split.
  - pose proof keycodeScans_codes as T. rewrite forallb_forall in T.
    specialize (T t Hin). cbv zeta in T.
    repeat (apply andb_prop in T; destruct T as [T ?]).
    apply Z.eqb_eq in T.
    match goal with H : (Z.land _ _ =? t) = true |- _ =>
      apply Z.eqb_eq in H; rename H into Hlow end.
    unfold key_makes, key_breaks. cbn [filter map].
    repeat match goal with
           | H : negb ?b = true |- _ => apply negb_true_iff in H; rewrite H
           | H : Z.testbit _ _ = true |- _ => rewrite H
           end.
    cbn [negb andb map]. rewrite Hlow, T. repeat split.
Qed.

(** The bytes of the modifier pass are modifier codes. *)
Lemma modifierScans_codes :
  forallb (fun i =>
    is_modifier_scan (u8 (Z.lor (nth i modifierScans 0) 0x00))
    && is_modifier_scan (u8 (Z.lor (nth i modifierScans 0) 0x80)))
    (List.seq 0 8) = true.
Proof. vm_compute. reflexivity. Qed.

Lemma modifier_bytes_codes prev r b :
  In b (modifier_bytes prev r) -> is_modifier_scan b = true.
Proof.
  unfold modifier_bytes. cbv zeta. destruct (to_bool _); [|intros []].
  intros Hin. apply in_flat_map in Hin. destruct Hin as (i & Hi & Hb).
  pose proof modifierScans_codes as T. rewrite forallb_forall in T.
  specialize (T i Hi). apply andb_prop in T. destruct T as [T0 T1].
  destruct (to_bool (Z.land _ _)); [|destruct Hb].
  destruct Hb as [<-|[]]. destruct (to_bool _); assumption.
Qed.

Lemma filter_none {A : Type} (p : A -> bool) l :
  (forall a, In a l -> p a = false) -> filter p l = [].
Proof.
  induction l as [|a l IH]; intros H; cbn [filter]; [reflexivity|].
  rewrite (H a (or_introl eq_refl)). apply IH.
  intros a' Ha'. apply H. right. exact Ha'.
Qed.

Lemma modifier_bytes_read prev r :
  key_makes (modifier_bytes prev r) = []
  /\ key_breaks (modifier_bytes prev r) = [].
Proof.
  unfold key_makes, key_breaks.
  rewrite !filter_none; [split; reflexivity| |];
    intros b Hb; rewrite (modifier_bytes_codes prev r b Hb); reflexivity.
Qed.

Lemma report_bytes_read prev r :
  key_makes (report_bytes prev r)
  = flat_map (fun k => scan_bytes k true) (diff_keys r prev)
  /\ key_breaks (report_bytes prev r)
     = flat_map (fun k => scan_bytes k true) (diff_keys prev r).
Proof.
  unfold report_bytes. destruct (modifier_bytes_read prev r) as [Hm Hb].
  rewrite !key_makes_app, !key_breaks_app, Hm, Hb.
  rewrite !key_makes_flat_map, !key_breaks_flat_map. cbn [app].
  split.
  - rewrite (flat_map_ext _ (fun _ => @nil Z))
      by (intros k; apply (scan_bytes_read k)).
    rewrite flat_map_nil. cbn [app].
    apply flat_map_ext. intros k. apply (scan_bytes_read k).
  - rewrite (flat_map_ext (fun k => key_breaks (scan_bytes k true))
               (fun _ => @nil Z))
      by (intros k; apply (scan_bytes_read k)).
    rewrite flat_map_nil, app_nil_r.
    apply flat_map_ext. intros k. apply (scan_bytes_read k).
Qed.

Lemma reports_bytes_read prev rs :
  key_makes (reports_bytes prev rs)
  = flat_map (fun k => scan_bytes k true) (made_keys prev rs)
  /\ key_breaks (reports_bytes prev rs)
     = flat_map (fun k => scan_bytes k true) (broken_keys prev rs).
Proof.
  revert prev. induction rs as [|r rs IH]; intros prev.
  - split; reflexivity.
  - cbn [reports_bytes made_keys broken_keys].
    rewrite key_makes_app, key_breaks_app, !flat_map_app.
    destruct (report_bytes_read prev r) as [-> ->].
    destruct (IH r) as [-> ->]. split; reflexivity.
Qed.

Lemma run_keyb_events rs s :
  keyb_bytes (snd (run (keyb_events rs) s))
  = reports_bytes (prevReport s) (map snd rs).
Proof.
  revert s. induction rs as [|[t r] rs IH]; intros s.
  - reflexivity.
  - cbn [keyb_events map run fst snd handle reports_bytes].
    rewrite seq_snd, keyb_bytes_app, processKeybReport_keyb.
    f_equal. fold (keyb_events rs). rewrite IH.
    rewrite processKeybReport_prevReport. reflexivity.
Qed.

(** ** Make/break balance *)

Lemma count_occ_filter (p : Z -> bool) l k :
  count_occ Z.eq_dec (filter p l) k
  = if p k then count_occ Z.eq_dec l k else 0%nat.
Proof.
  induction l as [|a l IH]; cbn [filter].
  - destruct (p k); reflexivity.
  - destruct (Z.eq_dec a k) as [->|Hne].
    + destruct (p k) eqn:Hp.
      * rewrite !count_occ_cons_eq by reflexivity. rewrite IH. reflexivity.
      * exact IH.
    + destruct (p a).
      * rewrite !count_occ_cons_neq by exact Hne. exact IH.
      * rewrite count_occ_cons_neq by exact Hne. exact IH.
Qed.

Lemma pressed_In r k :
  In k (pressed r) <-> 3 < k /\ isPresentInReport r k = true.
Proof.
  unfold pressed, isPresentInReport. rewrite filter_In, existsb_exists.
  split.
  - intros [Hin Hn]. apply negb_true_iff, not_sentinel_nonzero in Hn.
    split; [exact Hn|]. exists k. split; [exact Hin|apply Z.eqb_refl].
  - intros [Hk (a & Hin & Ha)]. apply Z.eqb_eq in Ha. subst a.
    split; [exact Hin|]. apply negb_true_iff, orb_false_iff.
    unfold HID_KEY_NONE. split; [apply Z.eqb_neq|apply Z.leb_gt]; lia.
Qed.

(** A report without duplicates lists a key once or not at all. *)
Lemma pressed_count r k :
  distinct_keys r ->
  count_occ Z.eq_dec (pressed r) k
  = if (3 <? k) && isPresentInReport r k then 1%nat else 0%nat.
Proof.
  intros Hr.
  pose proof (proj1 (NoDup_count_occ Z.eq_dec (pressed r)) Hr k) as Hle.
  pose proof (count_occ_In Z.eq_dec (pressed r) k) as Hin.
  pose proof (count_occ_not_In Z.eq_dec (pressed r) k) as Hnin.
  rewrite pressed_In in Hin, Hnin.
  destruct (Z.ltb_spec 3 k) as [Hk|Hk]; cbn [andb].
  - destruct (isPresentInReport r k).
    + assert (count_occ Z.eq_dec (pressed r) k > 0)%nat
        by (apply Hin; split; [exact Hk|reflexivity]).
      lia.
    + apply Hnin. intros [_ F]. discriminate F.
  - apply Hnin. intros [F _]. lia.
Qed.

(** One transition: a key goes down when it appears and up when it
    disappears, once, provided no report lists it twice. *)
Lemma transition_count a b k :
  distinct_keys a -> distinct_keys b ->
  (count_occ Z.eq_dec (diff_keys b a) k
   + count_occ Z.eq_dec (pressed a) k
   = count_occ Z.eq_dec (diff_keys a b) k
     + count_occ Z.eq_dec (pressed b) k)%nat.
Proof.
  intros Ha Hb. unfold diff_keys.
  rewrite !count_occ_filter, (pressed_count a k Ha), (pressed_count b k Hb).
  destruct (3 <? k), (isPresentInReport a k), (isPresentInReport b k);
    reflexivity.
Qed.

Lemma last_cons {A : Type} (a d : A) l : last (a :: l) d = last l a.
Proof.
  revert a d. induction l as [|b l IH]; intros a d; [reflexivity|].
  change (last (a :: b :: l) d) with (last (b :: l) d).
  rewrite (IH b d), (IH b a). reflexivity.
Qed.

(** Along a list of reports the counts telescope. *)
Lemma balance_count prev rs k :
  distinct_keys prev -> Forall distinct_keys rs ->
  (count_occ Z.eq_dec (made_keys prev rs) k
   + count_occ Z.eq_dec (pressed prev) k
   = count_occ Z.eq_dec (broken_keys prev rs) k
     + count_occ Z.eq_dec (pressed (last rs prev)) k)%nat.
Proof.
  intros Hp Hrs. revert prev Hp.
  induction Hrs as [|r rs Hr _ IH]; intros prev Hp.
  - reflexivity.
  - cbn [made_keys broken_keys]. rewrite !count_occ_app, last_cons.
    pose proof (transition_count prev r k Hp Hr).
    pose proof (IH r Hr). lia.
Qed.

(** C3 (as the code has it): start from the all-zero previous report, feed
    keyboard reports none of which lists a key in two slots, and end with
    the all-zero report.  Among the bytes sent, leaving the modifier codes
    aside, the makes and the breaks are the same multiset of scancodes. *)
Theorem make_break_balance rs t s :
  prevReport s = zeroReport ->
  Forall (fun tr => distinct_keys (snd tr)) rs ->
  let bytes :=
    keyb_bytes (snd (run (keyb_events (rs ++ [(t, zeroReport)])) s)) in
  Permutation (key_makes bytes) (key_breaks bytes).
Proof.
  intros Hs Hrs. cbv zeta. rewrite run_keyb_events, Hs, map_app.
  cbn [map snd].
  destruct (reports_bytes_read zeroReport (map snd rs ++ [zeroReport]))
    as [-> ->].
  apply Permutation_flat_map.
  apply (Permutation_count_occ Z.eq_dec). intros k.
  assert (Hd : Forall distinct_keys (map snd rs ++ [zeroReport])).
  { apply Forall_app. split.
    - apply Forall_map. exact Hrs.
    - constructor; [constructor|constructor]. }
  pose proof (balance_count zeroReport _ k (NoDup_nil Z) Hd) as H.
  rewrite last_last in H. cbn in H. lia.
Qed.

Lemma make_break_balance_witness :
  prevReport initState = zeroReport
  /\ Forall (fun tr => distinct_keys (snd tr)) [(0, report_A)]
  /\ Permutation
       (key_makes (keyb_bytes
          (snd (run (keyb_events ([(0, report_A)] ++ [(0, zeroReport)]))
                    initState))))
       (key_breaks (keyb_bytes
          (snd (run (keyb_events ([(0, report_A)] ++ [(0, zeroReport)]))
                    initState)))).
Proof.
  assert (H : Forall (fun tr => distinct_keys (snd tr)) [(0, report_A)]).
  { constructor; [|constructor].
    unfold distinct_keys. cbn. constructor; [intros []|constructor]. }
  split; [reflexivity|]. split; [exact H|].
  exact (make_break_balance [(0, report_A)] 0 initState eq_refl H).
Defined.

(** C3 as stated fails when a report lists a key twice: A in two slots,
    then A in one slot, then no key, sends two makes of A and one break. *)
Lemma make_break_counterexample :
  prevReport initState = zeroReport
  /\ keyb_bytes
       (snd (run (keyb_events [(0, report_AA); (0, report_A);
                               (0, zeroReport)]) initState))
     = [0x1e; 0x1e; 0x9e]
  /\ ~ Permutation
        (key_makes (keyb_bytes
           (snd (run (keyb_events [(0, report_AA); (0, report_A);
                                   (0, zeroReport)]) initState))))
        (key_breaks (keyb_bytes
           (snd (run (keyb_events [(0, report_AA); (0, report_A);
                                   (0, zeroReport)]) initState)))).
Proof.
  split; [reflexivity|]. split; [reflexivity|].
  intros H. apply Permutation_length in H. discriminate H.
Qed.

(** * Further properties of the code *)

(** ** Scancode encoding (sendKeycode) *)

Lemma keycodeScans_low :
  forallb (fun t =>
    (0 <=? u8 (Z.lor t 0x00)) && (u8 (Z.lor t 0x00) <? 0x80)
    && (Z.land (u8 (Z.lor t 0x00)) 0x7f =? t)
    && (u8 (Z.lor t 0x80) =? t + 0x80)) keycodeScans = true.
Proof. vm_compute. reflexivity. Qed.

(** X1: [sendKeycode] sends one byte for a keycode from [HID_KEY_A] to
    [HID_KEY_A + 96]: the table entry in the low seven bits, bit 7 clear
    for a make and set for a break.  For any other keycode it sends nothing
    and changes nothing. *)
Theorem sendKeycode_encoding now k make s :
  if (HID_KEY_A <=? k) && (k <? HID_KEY_A + 97)
  then exists b,
         keyb_bytes (snd (sendKeycode now k make s)) = [b]
         /\ Z.testbit b 7 = negb make
         /\ Z.land b 0x7f = nth (Z.to_nat (k - HID_KEY_A)) keycodeScans 0
         /\ 0 <= b < 256
  else sendKeycode now k make s = (s, []).
Proof.
  destruct ((HID_KEY_A <=? k) && (k <? HID_KEY_A + 97)) eqn:E.
  - apply andb_prop in E. destruct E as [E1 E2].
    apply Z.leb_le in E1. apply Z.ltb_lt in E2.
    rewrite sendKeycode_keyb.
    destruct (scan_bytes_cases k)
      as [[E _]|(_ & t & Hin & Ht & Em & Eb)].
    + rewrite scan_bytes_make in E
        by (change sizeof_keycodeScans with 97; lia).
      discriminate E.
    + rewrite <- Ht.
      pose proof keycodeScans_codes as T. rewrite forallb_forall in T.
      specialize (T t Hin). cbv zeta in T.
      repeat (apply andb_prop in T; destruct T as [T ?]).
      pose proof keycodeScans_low as L. rewrite forallb_forall in L.
      specialize (L t Hin). cbv beta in L.
      repeat (apply andb_prop in L; destruct L as [L ?]).
      destruct make.
      * exists (u8 (Z.lor t 0x00)). rewrite Em.
        split; [reflexivity|]. split; [|split].
        -- match goal with H : negb (Z.testbit _ 7) = true |- _ =>
             apply negb_true_iff in H; exact H end.
        -- match goal with H : (Z.land _ 0x7f =? t) = true |- _ =>
             apply Z.eqb_eq in H; exact H end.
        -- apply u8_range.
      * exists (u8 (Z.lor t 0x80)). rewrite Eb.
        split; [reflexivity|]. split; [|split].
        -- match goal with H : Z.testbit _ 7 = true |- _ => exact H end.
        -- match goal with
           | H : (Z.land (u8 (Z.lor t 0x80)) _ =? t) = true |- _ =>
               apply Z.eqb_eq in H; exact H
           end.
        -- apply u8_range.
  - unfold sendKeycode.
    replace ((k <? HID_KEY_A) || (sizeof_keycodeScans <=? k - HID_KEY_A))
      with true; [reflexivity|].
    symmetry. apply orb_true_iff. apply andb_false_iff in E.
    destruct E as [E|E].
    + left. apply Z.leb_gt in E. apply Z.ltb_lt. exact E.
    + right. apply Z.ltb_ge in E. apply Z.leb_le.
      change sizeof_keycodeScans with 97. lia.
Qed.

(** ** Host commands (uartISR) *)

(** X2: a command byte received twice in a row leaves the state the
    command leaves when received once. *)
Theorem command_idempotent c s :
  fst (uartISR [c; c] s) = fst (uartISR [c] s).
Proof.
  unfold uartISR, modify. cbn [fst fold_left].
  rewrite !uartByte_branch. cbv zeta.
  destruct (uart_branch (u8 c)) as [|[|[|[|[|[|[|n]]]]]]];
    destruct s; reflexivity.
Qed.

Lemma no_command_table :
  all_bytes (fun ch => implb (no_command ch) (Nat.eqb (uart_branch ch) 0)
                       && implb (negb (no_command ch))
                                (negb (Nat.eqb (uart_branch ch) 0))) = true.
Proof. vm_compute. reflexivity. Qed.

(** X3: the bytes 0x00-0x3f and 0x48-0x53 match no command pattern; the
    parser drops them and the state is unchanged. *)
Theorem unknown_command_ignored c s :
  no_command (u8 c) = true -> fst (uartISR [c] s) = s.
Proof.
  intros H. unfold uartISR, modify. cbn [fst fold_left].
  rewrite uartByte_branch. cbv zeta.
  pose proof (all_bytes_spec _ no_command_table (u8 c) (u8_range c)) as T.
  cbv beta in T. apply andb_prop in T. destruct T as [T _].
  rewrite H in T. cbn [implb] in T. apply Nat.eqb_eq in T. rewrite T.
  reflexivity.
Qed.

Lemma unknown_command_ignored_witness :
  no_command (u8 0x4a) = true /\ fst (uartISR [0x4a] initState) = initState.
Proof.
  assert (H : no_command (u8 0x4a) = true) by reflexivity.
  split; [exact H|]. exact (unknown_command_ignored 0x4a initState H).
Defined.

(** X4: whatever the host sends, parsing writes nothing to either link and
    changes neither [txInhibit], the mouse accumulator, the previous
    report, the repeat timer nor the LED statics. *)
Theorem uartISR_touches_config_only rx s :
  let s' := fst (uartISR rx s) in
  snd (uartISR rx s) = []
  /\ txInhibit s' = txInhibit s
  /\ dx s' = dx s /\ dy s' = dy s
  /\ lmbPressed s' = lmbPressed s /\ rmbPressed s' = rmbPressed s
  /\ prevReport s' = prevReport s
  /\ keyRepeatKeyCode s' = keyRepeatKeyCode s
  /\ keyRepeatCountdown s' = keyRepeatCountdown s
  /\ lastUpdated s' = lastUpdated s
  /\ activityLED s' = activityLED s.
Proof.
  cbv zeta. pose proof (uartISR_frame rx s) as H.
  unfold same_but_host_config in H.
  generalize dependent (fst (uartISR rx s)). intros s' H.
  split; [reflexivity|]. rewrite H. repeat split.
Qed.

(** ** Keyboard reports (processKeybReport, compareKeybReports) *)

Lemma filter_all {A : Type} (p : A -> bool) l :
  (forall a, In a l -> p a = true) -> filter p l = l.
Proof.
  induction l as [|a l IH]; intros H; cbn [filter]; [reflexivity|].
  rewrite (H a (or_introl eq_refl)). f_equal. apply IH.
  intros a' Ha'. apply H. right. exact Ha'.
Qed.

Lemma last_default {A : Type} (l : list A) d d' :
  l <> [] -> last l d = last l d'.
Proof.
  induction l as [|a l IH]; intros Hl; [contradiction|].
  destruct l as [|b l]; [reflexivity|].
  change (last (b :: l) d = last (b :: l) d'). apply IH. discriminate.
Qed.

Section ReportTimer.

Variable now : Z.

(** The timer after the break pass. *)
Lemma break_pass_timer b l s :
  let d := filter (fun k => negb (isPresentInReport b k))
             (filter (fun k => negb ((k =? HID_KEY_NONE) || (k <=? 0x03))) l) in
  let s' := fst (for_each l (compareSlot now b false) s) in
  if existsb (Z.eqb (keyRepeatKeyCode s)) d
  then disarmed s'
  else keyRepeatKeyCode s' = keyRepeatKeyCode s
       /\ keyRepeatCountdown s' = keyRepeatCountdown s.
Proof.
  cbv zeta. revert s. induction l as [|a l IH]; intros s.
  - split; reflexivity.
  - cbn [for_each filter]. rewrite seq_fst.
    pose proof (compareSlot_break_timer now b a s) as H. cbv zeta in H.
    specialize (IH (fst (compareSlot now b false a s))).
    destruct (negb ((a =? HID_KEY_NONE) || (a <=? 0x03))); cbn [andb] in H.
    + cbn [filter]. destruct (negb (isPresentInReport b a)); cbn [andb] in H.
      * cbn [existsb]. destruct (keyRepeatKeyCode s =? a); cbn [orb].
        -- apply break_pass_disarmed, H.
        -- destruct H as [Hk Hc]. rewrite <- Hk, <- Hc. exact IH.
      * destruct H as [Hk Hc]. rewrite <- Hk, <- Hc. exact IH.
    + destruct H as [Hk Hc]. rewrite <- Hk, <- Hc. exact IH.
Qed.

(** One slot of the make pass: a new key arms the timer with the delay. *)
Lemma compareSlot_make_arm b k s :
  let s' := fst (compareSlot now b true k s) in
  keyRepeatDelay s' = keyRepeatDelay s
  /\ if negb ((k =? HID_KEY_NONE) || (k <=? 0x03))
        && negb (isPresentInReport b k)
     then keyRepeatKeyCode s' = k
          /\ keyRepeatCountdown s' = keyRepeatDelay s
     else keyRepeatKeyCode s' = keyRepeatKeyCode s
          /\ keyRepeatCountdown s' = keyRepeatCountdown s.
Proof.
  cbv zeta.
  destruct (repeat_led_fields _ _ (compareSlot_frame now b true k s))
    as (_ & _ & (Hd & _) & _).
  split; [exact Hd|]. unfold compareSlot.
  destruct (_ || _); [split; reflexivity|].
  destruct (negb (isPresentInReport b k)); [|split; reflexivity].
  cbn [negb andb]. rewrite seq_fst. unfold modify. cbn [fst].
  destruct (led_fields _ _ (sendKeycode_frame now k true s)) as (Hr & _).
  destruct (repeat_led_fields _ _ Hr) as (_ & _ & (Hd1 & _) & _).
  split; [reflexivity|]. cbn. exact Hd1.
Qed.

(** The timer after the make pass. *)
Lemma make_pass_arms b l s :
  let d := filter (fun k => negb (isPresentInReport b k))
             (filter (fun k => negb ((k =? HID_KEY_NONE) || (k <=? 0x03))) l) in
  let s' := fst (for_each l (compareSlot now b true) s) in
  match d with
  | [] => keyRepeatKeyCode s' = keyRepeatKeyCode s
          /\ keyRepeatCountdown s' = keyRepeatCountdown s
  | _ :: _ => keyRepeatKeyCode s' = last d 0
              /\ keyRepeatCountdown s' = keyRepeatDelay s
  end.
Proof.
  cbv zeta. revert s. induction l as [|a l IH]; intros s.
  - split; reflexivity.
  - cbn [for_each filter]. rewrite seq_fst.
    destruct (compareSlot_make_arm b a s) as [Hd H]. cbv zeta in Hd, H.
    specialize (IH (fst (compareSlot now b true a s))).
    destruct (negb ((a =? HID_KEY_NONE) || (a <=? 0x03))); cbn [andb] in H.
    + cbn [filter]. destruct (negb (isPresentInReport b a)).
      * destruct H as [Hk Hc]. rewrite last_cons.
        destruct (filter _ (filter _ l)) as [|k d'] eqn:E.
        -- destruct IH as [Hk' Hc']. cbn [last]. split; congruence.
        -- destruct IH as [Hk' Hc']. split; [|congruence].
           rewrite Hk'. apply last_default. discriminate.
      * destruct H as [Hk Hc]. rewrite <- Hk, <- Hc, <- Hd. exact IH.
    + destruct H as [Hk Hc]. rewrite <- Hk, <- Hc, <- Hd. exact IH.
Qed.

(** The timer after a report. *)
Lemma processKeybReport_timer r s :
  let prev := prevReport s in
  let s' := fst (processKeybReport now r s) in
  match diff_keys r prev with
  | [] =>
      if existsb (Z.eqb (keyRepeatKeyCode s)) (diff_keys prev r)
      then disarmed s'
      else keyRepeatKeyCode s' = keyRepeatKeyCode s
           /\ keyRepeatCountdown s' = keyRepeatCountdown s
  | _ :: _ =>
      keyRepeatKeyCode s' = last (diff_keys r prev) 0
      /\ keyRepeatCountdown s' = keyRepeatDelay s
  end.
Proof.
  cbv zeta. rewrite processKeybReport_fst. cbv zeta.
  set (md := u8 (Z.lxor (modifier (prevReport s)) (modifier r))).
  destruct (led_fields _ _ (modifier_pass_frame now r md s))
    as (Hf1 & Hk1 & Hc1).
  destruct (repeat_led_fields _ _ Hf1) as (_ & _ & (Hd1 & _) & _).
  set (s1 := fst ((if to_bool md
                   then for_each (List.seq 0 8) (modifierBit now r md)
                   else skip) s)) in *.
  pose proof (break_pass_timer (r) (slots (keycode (prevReport s))) s1) as Hb.
  cbv zeta in Hb. fold (pressed (prevReport s)) in Hb.
  fold (diff_keys (prevReport s) r) in Hb.
  fold (compareKeybReports now (prevReport s) r false) in Hb.
  destruct (repeat_led_fields _ _
              (compareKeybReports_frame now (prevReport s) r false s1))
    as (_ & _ & (Hd2 & _) & _).
  set (s2 := fst (compareKeybReports now (prevReport s) r false s1)) in *.
  pose proof (make_pass_arms (prevReport s) (slots (keycode r)) s2) as Hm.
  cbv zeta in Hm. fold (pressed r) in Hm.
  fold (diff_keys r (prevReport s)) in Hm.
  fold (compareKeybReports now r (prevReport s) true) in Hm.
  set (s3 := fst (compareKeybReports now r (prevReport s) true s2)) in *.
  change (keyRepeatKeyCode (set_prevReport r s3)) with (keyRepeatKeyCode s3).
  change (keyRepeatCountdown (set_prevReport r s3))
    with (keyRepeatCountdown s3).
  rewrite Hk1 in Hb.
  destruct (diff_keys r (prevReport s)) as [|k d].
  - destruct Hm as [Hk3 Hc3].
    destruct (existsb _ _).
    + destruct Hb as [Hz Hcz]. split; cbn; congruence.
    + destruct Hb as [Hk2 Hc2]. split; congruence.
  - destruct Hm as [Hk3 Hc3]. split; congruence.
Qed.

Lemma diff_keys_same r : diff_keys r r = [].
Proof.
  unfold diff_keys. apply filter_none. intros k Hk.
  apply pressed_In in Hk. destruct Hk as [_ Hk]. rewrite Hk. reflexivity.
Qed.

Lemma modifier_bytes_same r : modifier_bytes r r = [].
Proof.
  unfold modifier_bytes. cbv zeta. rewrite Z.lxor_nilpotent. reflexivity.
Qed.

End ReportTimer.

(** X5: the bytes of a keyboard report leave in three groups: the codes of
    the modifier bits that changed; then, for every key of the previous
    report that is in no slot of the new one, its break byte (table entry
    plus 0x80) when the keycode is 0x04 to 0x64 and nothing otherwise;
    then, for every key of the new report that is in no slot of the
    previous one, its make byte (table entry) when the keycode is 0x04 to
    0x64 and nothing otherwise; each group in slot order.  Nothing goes to
    the mouse link and the report becomes the previous report. *)
Theorem keyboard_report_byte_order now r s :
  keyb_bytes (snd (processKeybReport now r s))
  = modifier_bytes (prevReport s) r
    ++ flat_map (fun k => key_code_byte k false) (diff_keys (prevReport s) r)
    ++ flat_map (fun k => key_code_byte k true) (diff_keys r (prevReport s))
  /\ mouse_bytes (snd (processKeybReport now r s)) = []
  /\ prevReport (fst (processKeybReport now r s)) = r.
Proof.
  split; [|split].
  - rewrite processKeybReport_keyb. unfold report_bytes.
    rewrite (flat_map_ext (fun k => scan_bytes k false)
               (fun k => key_code_byte k false))
      by (intros k; apply scan_bytes_table).
    rewrite (flat_map_ext (fun k => scan_bytes k true)
               (fun k => key_code_byte k true))
      by (intros k; apply scan_bytes_table).
    reflexivity.
  - apply processKeybReport_mouse.
  - apply processKeybReport_prevReport.
Qed.

(** X6: a report equal to the previous one sends nothing and leaves the
    repeat timer as it is. *)
Theorem repeated_report_silent now r s :
  prevReport s = r ->
  keyb_bytes (snd (processKeybReport now r s)) = []
  /\ keyRepeatKeyCode (fst (processKeybReport now r s)) = keyRepeatKeyCode s
  /\ keyRepeatCountdown (fst (processKeybReport now r s))
     = keyRepeatCountdown s.
Proof.
  intros Hp. split.
  - rewrite processKeybReport_keyb, Hp. unfold report_bytes.
    rewrite modifier_bytes_same, diff_keys_same. reflexivity.
  - pose proof (processKeybReport_timer now r s) as H. cbv zeta in H.
    rewrite Hp, diff_keys_same in H. cbn [existsb] in H. exact H.
Qed.

Lemma repeated_report_silent_witness :
  prevReport key_A_down = report_A
  /\ keyb_bytes (snd (processKeybReport 7 report_A key_A_down)) = []
  /\ keyRepeatKeyCode (fst (processKeybReport 7 report_A key_A_down)) = 0x04.
Proof.
  assert (H : prevReport key_A_down = report_A) by reflexivity.
  split; [exact H|].
  destruct (repeated_report_silent 7 report_A key_A_down H) as (Hb & Hk & _).
  split; [exact Hb|]. rewrite Hk. reflexivity.
Defined.

(** X7: a report whose slots hold only empty or error codes (0x00-0x03),
    such as the rollover report, sends the codes of the modifier bits that
    changed and then, for every key of the previous report, its break byte
    when the keycode is 0x04 to 0x64 and nothing otherwise.  Modifier
    codes aside it sends no make.  When the armed key was among the keys
    of the previous report the timer is disarmed. *)
Theorem sentinel_report_releases_all now r s :
  pressed r = [] ->
  keyb_bytes (snd (processKeybReport now r s))
  = modifier_bytes (prevReport s) r
    ++ flat_map (fun k => key_code_byte k false) (pressed (prevReport s))
  /\ key_makes (keyb_bytes (snd (processKeybReport now r s))) = []
  /\ (In (keyRepeatKeyCode s) (pressed (prevReport s)) ->
      disarmed (fst (processKeybReport now r s))).
Proof.
  intros Hr.
  assert (Hm : diff_keys r (prevReport s) = []).
  { unfold diff_keys. rewrite Hr. reflexivity. }
  assert (Hb : diff_keys (prevReport s) r = pressed (prevReport s)).
  { unfold diff_keys. apply filter_all. intros k Hk.
    apply pressed_In in Hk. destruct Hk as [Hk _].
    destruct (isPresentInReport r k) eqn:E; [|reflexivity].
    assert (Hin : In k (pressed r)) by (apply pressed_In; split; assumption).
    rewrite Hr in Hin. destruct Hin. }
  split; [|split].
  - rewrite processKeybReport_keyb. unfold report_bytes.
    rewrite Hm, Hb. cbn [flat_map]. rewrite app_nil_r.
    rewrite (flat_map_ext (fun k => scan_bytes k false)
               (fun k => key_code_byte k false))
      by (intros k; apply scan_bytes_table).
    reflexivity.
  - rewrite processKeybReport_keyb.
    destruct (report_bytes_read (prevReport s) r) as [-> _].
    rewrite Hm. reflexivity.
  - intros Hin. pose proof (processKeybReport_timer now r s) as H.
    cbv zeta in H. rewrite Hm, Hb in H.
    replace (existsb (Z.eqb (keyRepeatKeyCode s)) (pressed (prevReport s)))
      with true in H; [exact H|].
    symmetry. apply existsb_exists. exists (keyRepeatKeyCode s).
    split; [exact Hin|apply Z.eqb_refl].
Qed.

Lemma sentinel_report_releases_all_witness :
  pressed report_rollover = []
  /\ keyb_bytes (snd (processKeybReport 0 report_rollover key_A_down))
     = [0x9e]
  /\ keyb_bytes (snd (processKeybReport 0 report_rollover key_0x65_down))
     = []
  /\ disarmed (fst (processKeybReport 0 report_rollover key_A_down)).
Proof.
  assert (H : pressed report_rollover = []) by reflexivity.
  split; [exact H|].
  destruct (sentinel_report_releases_all 0 report_rollover key_A_down H)
    as (Hb & _ & Hd).
  destruct (sentinel_report_releases_all 0 report_rollover key_0x65_down H)
    as (Hb' & _).
  split; [rewrite Hb; reflexivity|].
  split; [rewrite Hb'; reflexivity|].
  apply Hd. left. reflexivity.
Defined.

(** X8: the repeat timer after a keyboard report.  When the report has new
    keys the timer is armed for the last of them in slot order, with
    [keyRepeatDelay], whether or not the key has a scancode.  When it has
    none, the timer is disarmed if the armed key is among the released
    keys and is left alone otherwise. *)
Theorem report_sets_repeat_timer now r s :
  let made := diff_keys r (prevReport s) in
  let broken := diff_keys (prevReport s) r in
  let s' := fst (processKeybReport now r s) in
  match made with
  | [] =>
      if existsb (Z.eqb (keyRepeatKeyCode s)) broken
      then keyRepeatKeyCode s' = 0 /\ keyRepeatCountdown s' = 0
      else keyRepeatKeyCode s' = keyRepeatKeyCode s
           /\ keyRepeatCountdown s' = keyRepeatCountdown s
  | _ :: _ =>
      keyRepeatKeyCode s' = last made 0
      /\ keyRepeatCountdown s' = keyRepeatDelay s
  end.
Proof. exact (processKeybReport_timer now r s). Qed.

(** ** Ticks before the countdown runs out (processKeybAndMouse) *)

Lemma elapsed_nonneg es :
  Forall (fun e => 0 <= tick_time e) es -> 0 <= elapsed es.
Proof.
  induction 1 as [|e es He _ IH]; cbn [elapsed fold_right]; [lia|].
  fold (elapsed es). lia.
Qed.

(** X9: while the ticks received since the timer was armed span less than
    the countdown, they send nothing on the keyboard link, keep the armed
    key, and leave the countdown lowered by the time they span. *)
Theorem ticks_before_expiry es s :
  Forall is_tick es ->
  Forall (fun e => 0 <= tick_time e) es ->
  0 < keyRepeatCountdown s < 2 ^ 31 ->
  elapsed es < keyRepeatCountdown s ->
  keyb_bytes (snd (run es s)) = []
  /\ keyRepeatKeyCode (fst (run es s)) = keyRepeatKeyCode s
  /\ keyRepeatCountdown (fst (run es s)) = keyRepeatCountdown s - elapsed es.
Proof.
  intros Ht. revert s.
  induction Ht as [|[now e] es He _ IH]; intros s Hpos Hc Hel.
  - cbn. repeat split. lia.
  - inversion Hpos as [|? ? Hd Hpos']; subst.
    destruct e as [r|r|dt rx|g ev|]; try destruct He.
    cbn [tick_time snd] in Hd. cbn [elapsed fold_right] in Hel.
    fold (elapsed es) in Hel. cbn [tick_time snd] in Hel.
    pose proof (elapsed_nonneg es Hpos') as Hn.
    cbn [run handle]. rewrite seq_fst, seq_snd, keyb_bytes_app.
    destruct (processKeybAndMouse_timer now dt rx s) as (Hk & _ & Hcd).
    cbv zeta in Hk, Hcd.
    pose proof (processKeybAndMouse_keyb now dt rx s) as Hb.
    assert (E1 : to_bool (keyRepeatCountdown s) = true).
    { unfold to_bool. destruct (Z.eqb_spec (keyRepeatCountdown s) 0); [lia|].
      reflexivity. }
    assert (E2 : s32 (keyRepeatCountdown s - u32 dt)
                 = keyRepeatCountdown s - dt).
    { rewrite u32_small by lia. apply s32_small. lia. }
    rewrite E1, E2 in Hb, Hcd.
    destruct (Z.leb_spec (keyRepeatCountdown s - dt) 0) as [F|_]; [lia|].
    cbn [andb] in Hb.
    destruct (IH (fst (processKeybAndMouse now dt rx s)) Hpos')
      as (Hb' & Hk' & Hc'); [lia|lia|].
    rewrite Hb, Hb', Hk', Hc', Hk, Hcd.
    cbn [elapsed fold_right tick_time snd]. fold (elapsed es).
    repeat split. lia.
Qed.

Lemma ticks_before_expiry_witness :
  Forall is_tick (repeat (0, Tick 100 []) 4)
  /\ keyb_bytes (snd (run (repeat (0, Tick 100 []) 4) key_A_down)) = []
  /\ keyRepeatCountdown (fst (run (repeat (0, Tick 100 []) 4) key_A_down))
     = 100.
Proof.
  assert (H1 : Forall is_tick (repeat (0, Tick 100 []) 4))
    by (repeat constructor).
  assert (H2 : Forall (fun e => 0 <= tick_time e) (repeat (0, Tick 100 []) 4))
    by (repeat constructor; cbn; lia).
  assert (H3 : 0 < keyRepeatCountdown key_A_down < 2 ^ 31)
    by (split; reflexivity).
  assert (H4 : elapsed (repeat (0, Tick 100 []) 4)
               < keyRepeatCountdown key_A_down) by reflexivity.
  destruct (ticks_before_expiry _ key_A_down H1 H2 H3 H4) as (Hb & _ & Hc).
  split; [exact H1|]. split; [exact Hb|]. rewrite Hc. reflexivity.
Defined.

(** ** What an event can send *)

Lemma flat_map_length_le {A B : Type} (f : A -> list B) l :
  (forall a, length (f a) <= 1)%nat ->
  (length (flat_map f l) <= length l)%nat.
Proof.
  intros H. induction l as [|a l IH]; cbn [flat_map length]; [lia|].
  rewrite length_app. specialize (H a). lia.
Qed.

Lemma scan_bytes_length k m : (length (scan_bytes k m) <= 1)%nat.
Proof. unfold scan_bytes. destruct (_ || _); cbn; lia. Qed.

Lemma diff_keys_length a b : (length (diff_keys a b) <= 6)%nat.
Proof.
  unfold diff_keys, pressed.
  etransitivity; [apply filter_length_le|].
  etransitivity; [apply filter_length_le|]. reflexivity.
Qed.

Lemma modifier_bytes_length prev r : (length (modifier_bytes prev r) <= 8)%nat.
Proof.
  unfold modifier_bytes. cbv zeta. destruct (to_bool _); [|cbn; lia].
  etransitivity; [apply flat_map_length_le|reflexivity].
  intros i. destruct (to_bool _); cbn; lia.
Qed.

Lemma frame_of_length s : length (frame_of s) = 3%nat.
Proof. rewrite frame_of_bytes. reflexivity. Qed.

(** X10: a keyboard report sends at most 20 bytes on the keyboard link and
    none on the mouse link; a tick sends at most one keyboard byte and at
    most one mouse frame; a GPIO interrupt sends at most one mouse frame
    and no keyboard byte; a mouse report and the heartbeat send nothing. *)
Theorem event_output_bounds now e s :
  (length (keyb_bytes (snd (handle now e s))) <= max_keyb_bytes e)%nat
  /\ (length (mouse_bytes (snd (handle now e s))) <= max_mouse_bytes e)%nat.
Proof.
  destruct e as [r|r|dt rx|g ev|]; cbn [handle max_keyb_bytes max_mouse_bytes].
  - rewrite processKeybReport_keyb, processKeybReport_mouse. split; [|cbn; lia].
    unfold report_bytes. rewrite !length_app.
    pose proof (modifier_bytes_length (prevReport s) r).
    pose proof (flat_map_length_le (fun k => scan_bytes k false)
                  (diff_keys (prevReport s) r)
                  (fun k => scan_bytes_length k false)).
    pose proof (flat_map_length_le (fun k => scan_bytes k true)
                  (diff_keys r (prevReport s))
                  (fun k => scan_bytes_length k true)).
    pose proof (diff_keys_length (prevReport s) r).
    pose proof (diff_keys_length r (prevReport s)). lia.
  - split; cbn; lia.
  - rewrite processKeybAndMouse_keyb, processKeybAndMouse_mouse,
      pollHost_mouse. split.
    + destruct (_ && _); [apply scan_bytes_length|cbn; lia].
    + destruct (_ && _); [|cbn; lia].
      destruct (txInhibit s); [cbn; lia|]. rewrite frame_of_length. lia.
  - rewrite gpioISR_keyb, gpioISR_mouse. split; [cbn; lia|].
    destruct (_ && _); [|cbn; lia].
    destruct (txInhibit s); [cbn; lia|]. rewrite frame_of_length. lia.
  - rewrite flashActivityLED_keyb, flashActivityLED_mouse. split; cbn; lia.
Qed.

(** ** The inhibit line (gpioISR) *)

(** X11: only a GPIO interrupt writes [txInhibit].  A falling edge on
    MSCTRL leaves it alone; every other interrupt, on whatever pin, sets it
    to whether the event mask has the falling-edge bit (the second test of
    [gpioISR] is an assignment, true for every pin). *)
Theorem txInhibit_written_by_gpio_only now e s :
  txInhibit (fst (handle now e s))
  = match e with
    | Gpio g ev =>
        if (g =? MSCTRL_GPIO) && to_bool (Z.land ev GPIO_IRQ_EDGE_FALL)
        then txInhibit s
        else to_bool (Z.land ev GPIO_IRQ_EDGE_FALL)
    | _ => txInhibit s
    end.
Proof.
  destruct e as [r|r|dt rx|g ev|]; cbn [handle].
  - destruct (processKeybReport_frame now r s) as (s1 & Hf & ->).
    destruct (repeat_led_fields _ _ Hf) as (Ht & _). exact Ht.
  - reflexivity.
  - unfold processKeybAndMouse. rewrite seq_fst.
    destruct (repeat_led_fields _ _
                (keyRepeat_frame now dt (fst (pollHost now rx s))))
      as (-> & _).
    destruct (pollHost_frame now rx s) as (Ht & _). exact Ht.
  - unfold gpioISR. destruct (_ && _).
    + destruct (motion_led_fields _ _ (sendMouse_frame now s)) as (Ht & _).
      exact Ht.
    + reflexivity.
  - destruct (led_fields _ _ (flashActivityLED_frame now 500 s)) as (Hf & _).
    destruct (repeat_led_fields _ _ Hf) as (Ht & _). exact Ht.
Qed.

(** ** Mouse frames across an inhibit (sendMouse, gpioISR) *)

(** X12: a mouse request that arrives while transmission is inhibited is
    not lost motion: once READY has risen again the next request sends the
    frame of the accumulator as it was. *)
Theorem deltas_survive_inhibit t1 t2 t3 s :
  txInhibit s = true ->
  mouse_bytes
    (snd (run [(t1, Gpio MSCTRL_GPIO GPIO_IRQ_EDGE_FALL);
               (t2, Gpio READY_GPIO GPIO_IRQ_EDGE_RISE);
               (t3, Gpio MSCTRL_GPIO GPIO_IRQ_EDGE_FALL)] s))
  = frame_of s.
Proof.
  intros H. cbn [run handle].
  rewrite !seq_snd, !mouse_bytes_app.
  change (gpioISR t1 MSCTRL_GPIO GPIO_IRQ_EDGE_FALL) with (sendMouse t1).
  change (gpioISR t3 MSCTRL_GPIO GPIO_IRQ_EDGE_FALL) with (sendMouse t3).
  change (gpioISR t2 READY_GPIO GPIO_IRQ_EDGE_RISE)
    with (modify (set_txInhibit false)).
  rewrite (sendMouse_inhibited t1 s H).
  cbn [fst snd modify skip mouse_bytes flat_map app].
  rewrite sendMouse_mouse. cbn [txInhibit set_txInhibit].
  rewrite app_nil_r. reflexivity.
Qed.

Lemma deltas_survive_inhibit_witness :
  txInhibit ready_low_moved = true
  /\ mouse_bytes
       (snd (run [(0, Gpio MSCTRL_GPIO GPIO_IRQ_EDGE_FALL);
                  (0, Gpio READY_GPIO GPIO_IRQ_EDGE_RISE);
                  (0, Gpio MSCTRL_GPIO GPIO_IRQ_EDGE_FALL)] ready_low_moved))
     = [0x01; 0x0a; 0xfb].
Proof.
  assert (H : txInhibit ready_low_moved = true) by reflexivity.
  split; [exact H|].
  rewrite (deltas_survive_inhibit 0 0 0 ready_low_moved H). reflexivity.
Defined.

(** X13: a frame sent right after another, with no mouse report between
    them, carries the buttons and zero deltas. *)
Theorem second_frame_has_zero_deltas now now' s :
  txInhibit s = false ->
  mouse_bytes (snd (sendMouse now' (fst (sendMouse now s))))
  = [of_bool (lmbPressed s) + 2 * of_bool (rmbPressed s); 0; 0].
Proof.
  intros H. rewrite sendMouse_mouse.
  destruct (motion_led_fields _ _ (sendMouse_frame now s)) as (Ht & _).
  rewrite Ht, H.
  destruct (sendMouse_motion now s H) as (Hx & Hy & Hl & Hr).
  cbv zeta in Hx, Hy, Hl, Hr.
  unfold frame_of. rewrite Hx, Hy, Hl, Hr.
  destruct (lmbPressed s), (rmbPressed s); reflexivity.
Qed.

Lemma second_frame_has_zero_deltas_witness :
  txInhibit mouse_moved = false
  /\ mouse_bytes (snd (sendMouse 0 (fst (sendMouse 0 mouse_moved))))
     = [0x01; 0; 0].
Proof.
  assert (H : txInhibit mouse_moved = false) by reflexivity.
  split; [exact H|].
  rewrite (second_frame_has_zero_deltas 0 0 mouse_moved H). reflexivity.
Defined.

(** ** Values of the variables in reachable states *)

Lemma keyInhibit_never_set_witness :
  reachable (fst (handle 0 (Tick 0 [0x58; 0x59]) initState))
  /\ keyInhibit (fst (handle 0 (Tick 0 [0x58; 0x59]) initState)) = false.
Proof.
  assert (H : reachable (fst (handle 0 (Tick 0 [0x58; 0x59]) initState)))
    by (apply reach_step, reach_init).
  split; [exact H|]. exact (keyInhibit_never_set _ H).
Defined.

Lemma ranges_transfer s s' :
  currentLedLevel s' = currentLedLevel s ->
  currentLedState s' = currentLedState s ->
  keyRepeatDelay s' = keyRepeatDelay s ->
  keyRepeatInterval s' = keyRepeatInterval s ->
  dx s' = dx s -> dy s' = dy s ->
  config_ranges s /\ motion_ranges s ->
  config_ranges s' /\ motion_ranges s'.
Proof.
  unfold config_ranges, motion_ranges. intros -> -> -> -> -> ->.
  exact (fun H => H).
Qed.

Lemma ranges_repeat_led s s' :
  same_but_repeat_led s s' ->
  config_ranges s /\ motion_ranges s ->
  config_ranges s' /\ motion_ranges s'.
Proof.
  unfold same_but_repeat_led. intros H.
  apply ranges_transfer; rewrite H; reflexivity.
Qed.

Lemma ranges_motion_led s s' :
  same_but_motion_led s s' ->
  config_ranges s -> config_ranges s'.
Proof.
  unfold same_but_motion_led, config_ranges. intros H. rewrite H.
  exact (fun H => H).
Qed.

Lemma land_3 z : Z.land z 0x03 = z mod 4.
Proof. change 0x03 with (Z.ones 2). apply Z.land_ones. lia. Qed.

Lemma land_127 z : Z.land z 0x7f = z mod 128.
Proof. change 0x7f with (Z.ones 7). apply Z.land_ones. lia. Qed.

Lemma uartByte_ranges c s :
  config_ranges s /\ motion_ranges s ->
  config_ranges (uartByte c s) /\ motion_ranges (uartByte c s).
Proof.
  intros [(Hl & Hs & Hd & Hi) Hm]. split.
  - rewrite uartByte_branch. cbv zeta. unfold config_ranges.
    pose proof (Z.mod_pos_bound (u8 c) 4 ltac:(reflexivity)) as B4.
    pose proof (Z.mod_pos_bound (u8 c) 16 ltac:(reflexivity)) as B16.
    pose proof (Z.mod_pos_bound (u8 c) 128 ltac:(reflexivity)) as B128.
    destruct (uart_branch (u8 c)) as [|[|[|[|[|[|[|n]]]]]]];
      cbn [currentLedLevel currentLedState keyRepeatDelay keyRepeatInterval
           set_msctrlAsserted set_currentLedLevel set_keyInhibit
           set_keyRepeatDelay set_keyRepeatInterval set_currentLedState];
      repeat split; try lia.
    + rewrite land_3, u8_small; lia.
    + rewrite land_3, u8_small; lia.
    + rewrite land_15. unfold u16. rewrite Z.mod_small; lia.
    + rewrite land_15. unfold u16. rewrite Z.mod_small; lia.
    + rewrite land_15. unfold u16.
      rewrite (Z.mod_small (u8 c mod 16)) by lia. rewrite Z.mod_small; nia.
    + rewrite land_15. unfold u16.
      rewrite (Z.mod_small (u8 c mod 16)) by lia. rewrite Z.mod_small; nia.
    + rewrite land_127, u8_small; lia.
    + rewrite land_127, u8_small; lia.
  - destruct (host_config_fields _ _ (uartByte_frame c s))
      as (_ & (Hx & Hy & _) & _).
    unfold motion_ranges. rewrite Hx, Hy. exact Hm.
Qed.

Lemma sendMouse_ranges now s :
  config_ranges s /\ motion_ranges s ->
  config_ranges (fst (sendMouse now s))
  /\ motion_ranges (fst (sendMouse now s)).
Proof.
  intros [Hc Hm]. split.
  - apply (ranges_motion_led _ _ (sendMouse_frame now s) Hc).
  - destruct (txInhibit s) eqn:E.
    + rewrite sendMouse_inhibited by exact E. exact Hm.
    + destruct (sendMouse_motion now s E) as (Hx & Hy & _).
      cbv zeta in Hx, Hy. unfold motion_ranges, in_int16.
      rewrite Hx, Hy. split; lia.
Qed.

Lemma handle_ranges now e s :
  config_ranges s /\ motion_ranges s ->
  config_ranges (fst (handle now e s)) /\ motion_ranges (fst (handle now e s)).
Proof.
  intros Hs. destruct e as [r|r|dt rx|g ev|]; cbn [handle].
  - destruct (processKeybReport_frame now r s) as (s1 & Hf & ->).
    apply (ranges_repeat_led _ _ Hf) in Hs. exact Hs.
  - destruct Hs as [Hc _]. split; [exact Hc|].
    split; cbn; apply s16_range.
  - unfold processKeybAndMouse. rewrite seq_fst.
    apply (ranges_repeat_led _ _
             (keyRepeat_frame now dt (fst (pollHost now rx s)))).
    rewrite pollHost_unfold. cbv zeta.
    assert (H1 : config_ranges (fst (uartISR rx s))
                 /\ motion_ranges (fst (uartISR rx s))).
    { unfold uartISR, modify. cbn [fst]. revert s Hs.
      induction rx as [|c rx IH]; intros s Hs; cbn [fold_left];
        [exact Hs|]. apply IH, uartByte_ranges, Hs. }
    destruct (negb _ && _); [|exact H1]. apply sendMouse_ranges, H1.
  - unfold gpioISR. destruct (_ && _).
    + apply sendMouse_ranges, Hs.
    + exact Hs.
  - apply (ranges_repeat_led _ _
             (same_but_led_repeat _ _ (flashActivityLED_frame now 500 s))).
    exact Hs.
Qed.

(** X15: in every reachable state the LED level is 0 to 3, the LED mask
    fits seven bits, the repeat delay is 200 to 1700 ms, the repeat
    interval 30 to 1155 ms, and [dx] and [dy] are signed 16-bit values. *)
Theorem reachable_ranges s :
  reachable s -> config_ranges s /\ motion_ranges s.
Proof.
  induction 1 as [|s now e _ IH].
  - unfold config_ranges, motion_ranges, in_int16. cbn. lia.
  - apply handle_ranges, IH.
Qed.

Lemma reachable_ranges_witness :
  reachable (fst (handle 0 (Tick 0 [0x6f; 0x7f; 0x57; 0xff]) initState))
  /\ keyRepeatDelay
       (fst (handle 0 (Tick 0 [0x6f; 0x7f; 0x57; 0xff]) initState)) = 1700
  /\ config_ranges
       (fst (handle 0 (Tick 0 [0x6f; 0x7f; 0x57; 0xff]) initState)).
Proof.
  assert (H : reachable
                (fst (handle 0 (Tick 0 [0x6f; 0x7f; 0x57; 0xff]) initState)))
    by (apply reach_step, reach_init).
  split; [exact H|]. split; [reflexivity|].
  exact (proj1 (reachable_ranges _ H)).
Defined.

(** ** The main loop (main) *)

(** X16: the [deltaTime] the main loop hands to [processKeybAndMouse] is
    the time the 32-bit millisecond timer has advanced since the previous
    iteration, also when the timer has wrapped around in between. *)
Theorem mainLoop_elapsed lastTimer d now reports rx s :
  0 <= d < 2 ^ 32 ->
  mainLoopBody (lastTimer + d) now reports rx (lastTimer, s)
  = let r1 := flashActivityLED now 500 s in
    let r2 := run reports (fst r1) in
    let r3 := processKeybAndMouse now d rx (fst r2) in
    ((u32 (lastTimer + d), fst r3), snd r1 ++ snd r2 ++ snd r3).
Proof.
  intros Hd. unfold mainLoopBody. cbv zeta. cbn [fst snd].
  replace (u32 (u32 (lastTimer + d) - lastTimer)) with d; [reflexivity|].
  unfold u32. rewrite Zminus_mod_idemp_l.
  replace (lastTimer + d - lastTimer) with d by lia.
  symmetry. apply Z.mod_small. exact Hd.
Qed.

Lemma mainLoop_elapsed_witness :
  0 <= 25 < 2 ^ 32
  /\ fst (fst (mainLoopBody (2 ^ 32 - 10 + 25) 0 [] []
                  (2 ^ 32 - 10, key_A_down))) = 15
  /\ keyRepeatCountdown
       (snd (fst (mainLoopBody (2 ^ 32 - 10 + 25) 0 [] []
                    (2 ^ 32 - 10, key_A_down)))) = 475.
Proof.
  assert (H : 0 <= 25 < 2 ^ 32) by (split; [discriminate|reflexivity]).
  split; [exact H|].
  rewrite (mainLoop_elapsed (2 ^ 32 - 10) 25 0 [] [] key_A_down H).
  split; reflexivity.
Defined.

(** ** The activity LED (flashActivityLED) *)

Lemma for_each_trace {A : Type} (body : A -> proc) (P : list output -> Prop) :
  P [] ->
  (forall t u, P t -> P u -> P (t ++ u)) ->
  (forall a s, P (snd (body a s))) ->
  forall l s, P (snd (for_each l body s)).
Proof.
  intros Hnil Happ Hbody l. induction l as [|a l IH]; intros s; cbn [for_each].
  - exact Hnil.
  - rewrite seq_snd. apply Happ; [apply Hbody|apply IH].
Qed.

Lemma pulse_per_byte_nil : pulse_per_byte [].
Proof. reflexivity. Qed.

Lemma pulse_per_byte_app t u :
  pulse_per_byte t -> pulse_per_byte u -> pulse_per_byte (t ++ u).
Proof.
  unfold pulse_per_byte. intros Ht Hu.
  rewrite led_flashes_app, keyb_bytes_app, length_app, repeat_app, Ht, Hu.
  reflexivity.
Qed.

Lemma emit_flash_pulse now b s :
  pulse_per_byte (snd (seq (emit [KeybTx b]) (flashActivityLED now 100) s)).
Proof.
  unfold pulse_per_byte.
  rewrite seq_snd, led_flashes_app, keyb_bytes_app,
    flashActivityLED_flashes, flashActivityLED_keyb.
  reflexivity.
Qed.

Lemma sendKeycode_pulse now k m s :
  pulse_per_byte (snd (sendKeycode now k m s)).
Proof.
  unfold sendKeycode. destruct (_ || _); [reflexivity|].
  apply emit_flash_pulse.
Qed.

Lemma compareSlot_pulse now b m k s :
  pulse_per_byte (snd (compareSlot now b m k s)).
Proof.
  unfold compareSlot.
  destruct (_ || _); [reflexivity|].
  destruct (negb _); [|reflexivity].
  rewrite seq_snd. apply pulse_per_byte_app; [apply sendKeycode_pulse|].
  destruct m; [|destruct (_ =? _)]; reflexivity.
Qed.

Lemma modifierBit_pulse now r md i s :
  pulse_per_byte (snd (modifierBit now r md i s)).
Proof.
  unfold modifierBit. destruct (to_bool _); [|reflexivity].
  apply emit_flash_pulse.
Qed.

(** X17: while a keyboard report is processed [flashActivityLED(100)] is
    called once for every byte sent on the keyboard link, and not
    otherwise. *)
Theorem keyboard_report_pulses now r s :
  led_flashes (snd (processKeybReport now r s))
  = repeat 100 (length (keyb_bytes (snd (processKeybReport now r s)))).
Proof.
  change (pulse_per_byte (snd (processKeybReport now r s))).
  unfold processKeybReport. cbv zeta. rewrite !seq_snd.
  repeat apply pulse_per_byte_app.
  - destruct (to_bool _); [|reflexivity].
    apply for_each_trace.
    + apply pulse_per_byte_nil.
    + apply pulse_per_byte_app.
    + intros i s1. apply modifierBit_pulse.
  - unfold compareKeybReports. apply for_each_trace.
    + apply pulse_per_byte_nil.
    + apply pulse_per_byte_app.
    + intros k s1. apply compareSlot_pulse.
  - unfold compareKeybReports. apply for_each_trace.
    + apply pulse_per_byte_nil.
    + apply pulse_per_byte_app.
    + intros k s1. apply compareSlot_pulse.
  - reflexivity.
Qed.

(** *** The LED writes alternate *)

Lemma led_writes_app t u : led_writes (t ++ u) = led_writes t ++ led_writes u.
Proof. apply flat_map_app. Qed.

Lemma toggled_succ b n : toggled b (S n) = toggled (negb b) n.
Proof.
  unfold toggled. rewrite Nat.even_succ, <- Nat.negb_even.
  destruct (Nat.even n), b; reflexivity.
Qed.

Lemma alternating_app b n m :
  alternating b (n + m) = alternating b n ++ alternating (toggled b n) m.
Proof.
  revert b. induction n as [|n IH]; intros b.
  - reflexivity.
  - cbn [Nat.add alternating app]. rewrite IH, toggled_succ. reflexivity.
Qed.

Lemma toggled_add b n m : toggled (toggled b n) m = toggled b (n + m).
Proof.
  revert b. induction n as [|n IH]; intros b.
  - reflexivity.
  - cbn [Nat.add]. rewrite !toggled_succ. apply IH.
Qed.

Lemma led_trace_compose s1 s2 s3 t u :
  led_trace s1 s2 t -> led_trace s2 s3 u -> led_trace s1 s3 (t ++ u).
Proof.
  unfold led_trace. intros [Ht Hs2] [Hu Hs3].
  rewrite led_writes_app, length_app, alternating_app, <- Ht.
  rewrite <- Hs2, <- Hu. split; [reflexivity|].
  rewrite Hs3, Hs2. apply toggled_add.
Qed.

Lemma led_trace_quiet s s' t :
  led_writes t = [] -> activityLED s' = activityLED s -> led_trace s s' t.
Proof. unfold led_trace. intros -> ->. split; reflexivity. Qed.

Lemma led_proc_skip : led_proc skip.
Proof. intros s. apply led_trace_quiet; reflexivity. Qed.

Lemma led_proc_seq p q : led_proc p -> led_proc q -> led_proc (seq p q).
Proof.
  intros Hp Hq s. rewrite seq_fst, seq_snd.
  eapply led_trace_compose; [apply Hp|apply Hq].
Qed.

Lemma led_proc_for_each {A : Type} (body : A -> proc) l :
  (forall a, led_proc (body a)) -> led_proc (for_each l body).
Proof.
  intros Hb. induction l as [|a l IH]; cbn [for_each].
  - apply led_proc_skip.
  - apply led_proc_seq; [apply Hb|exact IH].
Qed.

Lemma led_proc_flash now rate : led_proc (flashActivityLED now rate).
Proof.
  intros s. unfold flashActivityLED. destruct (_ <? _).
  - apply led_trace_quiet; reflexivity.
  - split; reflexivity.
Qed.

Lemma led_proc_emit_flash now b :
  led_proc (seq (emit [KeybTx b]) (flashActivityLED now 100)).
Proof.
  apply led_proc_seq; [|apply led_proc_flash].
  intros s. apply led_trace_quiet; reflexivity.
Qed.

Lemma led_proc_sendKeycode now k m : led_proc (sendKeycode now k m).
Proof.
  unfold sendKeycode. destruct (_ || _).
  - apply led_proc_skip.
  - apply led_proc_emit_flash.
Qed.

Lemma led_proc_compareSlot now b m k : led_proc (compareSlot now b m k).
Proof.
  unfold compareSlot. destruct (_ || _); [apply led_proc_skip|].
  destruct (negb _); [|apply led_proc_skip].
  apply led_proc_seq; [apply led_proc_sendKeycode|].
  intros s. destruct m; [|destruct (_ =? _)];
    apply led_trace_quiet; reflexivity.
Qed.

Lemma led_proc_modifierBit now r md i : led_proc (modifierBit now r md i).
Proof.
  unfold modifierBit. destruct (to_bool _).
  - apply led_proc_emit_flash.
  - apply led_proc_skip.
Qed.

Lemma led_proc_processKeybReport now r : led_proc (processKeybReport now r).
Proof.
  intros s. unfold processKeybReport. cbv zeta.
  apply led_proc_seq; [|apply led_proc_seq; [|apply led_proc_seq]].
  - destruct (to_bool _); [|apply led_proc_skip].
    apply led_proc_for_each. intros i. apply led_proc_modifierBit.
  - apply led_proc_for_each. intros k. apply led_proc_compareSlot.
  - apply led_proc_for_each. intros k. apply led_proc_compareSlot.
  - intros s1. apply led_trace_quiet; reflexivity.
Qed.

Lemma led_proc_sendMouse now : led_proc (sendMouse now).
Proof.
  intros s. destruct (txInhibit s) eqn:E.
  - rewrite sendMouse_inhibited by exact E. apply led_trace_quiet; reflexivity.
  - rewrite sendMouse_uninhibited by exact E. cbv zeta.
    destruct (early_out _); cbn [fst snd].
    + apply led_trace_quiet; [|reflexivity].
      unfold led_writes. induction (frame_of s) as [|b l IH];
        [reflexivity|exact IH].
    + eapply led_trace_compose; [|apply led_proc_flash].
      apply led_trace_quiet; [|reflexivity].
      unfold led_writes. induction (frame_of s) as [|b l IH];
        [reflexivity|exact IH].
Qed.

Lemma led_proc_pollHost now rx : led_proc (pollHost now rx).
Proof.
  intros s. rewrite pollHost_unfold. cbv zeta.
  assert (Ha : activityLED (fst (uartISR rx s)) = activityLED s).
  { pose proof (uartISR_frame rx s) as H. unfold same_but_host_config in H.
    rewrite H. reflexivity. }
  destruct (negb _ && _).
  - pose proof (led_proc_sendMouse now (fst (uartISR rx s))) as [H1 H2].
    split; rewrite <- Ha; assumption.
  - apply led_trace_quiet; [reflexivity|exact Ha].
Qed.

Lemma led_proc_keyRepeat now dt : led_proc (keyRepeat now dt).
Proof.
  intros s. unfold keyRepeat. cbv zeta.
  destruct (to_bool _); [|apply led_trace_quiet; reflexivity].
  destruct (_ <=? 0); [|apply led_trace_quiet; reflexivity].
  eapply led_trace_compose with (t := []).
  - apply led_trace_quiet with (s' := set_repeat (keyRepeatKeyCode s)
      (s32 (keyRepeatCountdown s - u32 dt)) s); reflexivity.
  - apply led_proc_seq; [apply led_proc_sendKeycode|].
    intros s1. apply led_trace_quiet; reflexivity.
Qed.

Lemma led_proc_handle now e : led_proc (handle now e).
Proof.
  destruct e as [r|r|dt rx|g ev|]; cbn [handle].
  - apply led_proc_processKeybReport.
  - intros s. apply led_trace_quiet; reflexivity.
  - apply led_proc_seq; [apply led_proc_pollHost|apply led_proc_keyRepeat].
  - unfold gpioISR. destruct (_ && _); [apply led_proc_sendMouse|].
    intros s. apply led_trace_quiet; reflexivity.
  - apply led_proc_flash.
Qed.

(** X18: over any run of events the values handed to [board_led_write]
    alternate, the first being the value [activityLED] had at the start,
    and [activityLED] ends negated once per write: no write repeats the
    value of the one before. *)
Theorem led_writes_alternate es s :
  led_writes (snd (run es s))
  = alternating (activityLED s) (length (led_writes (snd (run es s))))
  /\ activityLED (fst (run es s))
     = toggled (activityLED s) (length (led_writes (snd (run es s)))).
Proof.
  change (led_trace s (fst (run es s)) (snd (run es s))). revert s.
  change (led_proc (run es)).
  induction es as [|[now e] es IH]; cbn [run].
  - apply led_proc_skip.
  - apply led_proc_seq; [apply led_proc_handle|exact IH].
Qed.

(** ** The MSCTRL command edge (processKeybAndMouse) *)

(** X19: a tick sends a mouse frame exactly when [msctrlAsserted] was false
    before the received bytes were parsed and is true after all of them,
    and transmission is not inhibited; the frame is that of the accumulator
    before the tick.  Commands that assert MSCTRL while it is asserted, or
    assert and release it within one batch, send nothing. *)
Theorem tick_mouse_frame now dt rx s :
  mouse_bytes (snd (processKeybAndMouse now dt rx s))
  = if negb (msctrlAsserted s) && msctrlAsserted (fst (uartISR rx s))
       && negb (txInhibit s)
    then frame_of s else [].
Proof.
  rewrite processKeybAndMouse_mouse, pollHost_mouse.
  destruct (negb (msctrlAsserted s) && msctrlAsserted (fst (uartISR rx s)));
    destruct (txInhibit s); reflexivity.
Qed.
